(** * State generation, hot path (beacon-chain/stategen/hot.go)

    A shallow embedding of the hot section of the state generator: the
    service object ([State] in the Go code) is an explicit record that is
    threaded through every method, the database behind [beaconDB] is an
    in-memory store, and a Go [(value, error)] result together with the two
    run-time panics the code can raise is the type [outcome]. *)

From Stdlib Require Import ZArith List String Lia Sorted.
From stdpp Require Import base option list gmap.

Local Open Scope Z_scope.

(** ** Machine data *)

(** A block root is a Go [[32]byte]; it is kept as the number its bytes spell,
    so the zero value [[32]byte{}] is [0]. *)
Definition Root : Type := N.
Definition zeroRoot : Root := 0%N.

(** Slots and epochs are [uint64]: arithmetic on them wraps around. *)
Definition wrap64 (z : Z) : Z := z mod 2 ^ 64.

Module ethpb.
(** The fields of [ethpb.BeaconBlock] that the state generator and its
    tests read.  A [SignedBeaconBlock] is identified with the block it
    wraps: the signature is never looked at. *)
Record BeaconBlock : Type := {
  Slot : Z;
  ParentRoot : Root;
  StateRoot : Root
}.
End ethpb.

Module pb.
Record HotStateSummary : Type := {
  Slot : Z;
  LatestRoot : Root;
  BoundaryRoot : Root
}.
End pb.

(** ** Errors, panics and results *)

(** One constructor per [errors.New] site of hot.go ([ErrNilHotStateSummary]
    is the failure that the specification calls NotFound in [load_hot],
    [ErrNilBoundaryState] the one it calls MissingBoundary), then the failures
    of the block loader, of the replayer, of the state transition and of the
    hasher.  [Error] is the message of the Go value, or the name that the
    specification gives to the failure for the loader and the replayer. *)
Inductive error : Type :=
  | ErrNilHotStateSummary
  | ErrNilBoundaryState
  | ErrBoundaryRootNotCached
  | ErrIncorrectBoundaryLength
  | ErrEndBlockRootsMismatch
  | ErrBlockNotFound
  | ErrReplayPastTarget
  | ErrStateTransition
  | ErrHashTreeRoot.

Definition Error (e : error) : string :=
  match e with
  | ErrNilHotStateSummary => "nil hot state summary"
  | ErrNilBoundaryState => "boundary state can't be nil"
  | ErrBoundaryRootNotCached => "epoch boundary root is not cached"
  | ErrIncorrectBoundaryLength => "incorrect length for epoch boundary root"
  | ErrEndBlockRootsMismatch => "end block roots don't match"
  | ErrBlockNotFound => "NotFound"
  | ErrReplayPastTarget => "ReplayPastTarget"
  | ErrStateTransition => "StateTransitionError"
  | ErrHashTreeRoot => "HashTreeRoot"
  end.

Inductive panic : Type :=
  | IndexOutOfRange
  | NilPointerDereference.

Inductive outcome (A : Type) : Type :=
  | Ok (a : A)
  | Err (e : error)
  | Panic (p : panic).
Arguments Ok {A} a.
Arguments Err {A} e.
Arguments Panic {A} p.

Definition isOk {A : Type} (o : outcome A) : bool :=
  match o with Ok _ => true | _ => false end.

(** ** The collaborators of the state generator

    The consensus state, the hasher, the chain configuration and the state
    transition are not part of the package; the code is generic in them. *)
Class Env : Type := {
  BeaconState : Type;
  (** [state.Slot()] *)
  StateSlot : BeaconState -> Z;
  (** [params.BeaconConfig().SlotsPerEpoch] *)
  SlotsPerEpoch : Z;
  (** [ssz.HashTreeRoot]; [None] is its error. *)
  HashTreeRoot : ethpb.BeaconBlock -> option Root;
  (** [process_slots(state, target_slot)]: advances empty slots; [None] is
      its error. *)
  ProcessSlots : BeaconState -> Z -> option BeaconState;
  (** [state_transition(state, block)]: applies one block; [None] is its
      error. *)
  ExecuteStateTransition : BeaconState -> ethpb.BeaconBlock -> option BeaconState;
  (** [Slot()] returns a [uint64]. *)
  StateSlot_range : forall st, 0 <= StateSlot st < 2 ^ 64;
  (** The configuration value is a [uint64] and an epoch has a slot. *)
  SlotsPerEpoch_range : 0 < SlotsPerEpoch < 2 ^ 64
}.

Definition orErr {A : Type} (e : error) (o : option A) : outcome A :=
  match o with
  | Some a => Ok a
  | None => Err e
  end.

(** Modelled from the spec: the helpers [SlotToEpoch], [StartSlot],
    [IsEpochStart] and [CurrentEpoch] of beacon-chain/core/helpers, which
    hot.go calls.  An epoch is [SLOTS_PER_EPOCH] slots and an epoch boundary
    is a slot [S] with [S mod SLOTS_PER_EPOCH == 0] (glossary). *)
Definition SlotToEpoch {E : Env} (slot : Z) : Z := slot / SlotsPerEpoch.
Definition StartSlot {E : Env} (epoch : Z) : Z := wrap64 (epoch * SlotsPerEpoch).
Definition IsEpochStart {E : Env} (slot : Z) : bool := slot mod SlotsPerEpoch =? 0.
Definition CurrentEpoch {E : Env} (state : BeaconState) : Z := SlotToEpoch (StateSlot state).

(** ** The block store facade *)

(** Modelled from the spec: the database behind [beaconDB] (beacon-chain/db),
    by the contract of section 4.1.  States, summaries and blocks are kept by
    root; [blockOrder] is the order in which block roots were inserted, which
    [BlockRoots] exposes among blocks of one slot. *)
Record Store {E : Env} : Type := {
  states : gmap Root BeaconState;
  summaries : gmap Root pb.HotStateSummary;
  blocks : gmap Root ethpb.BeaconBlock;
  blockOrder : list Root;
  genesisRoot : option Root
}.

Definition emptyStore {E : Env} : Store :=
  {| states := ∅; summaries := ∅; blocks := ∅; blockOrder := []; genesisRoot := None |}.

(** Modelled from the spec: the filter of [block_roots], a slot in
    [[start_slot, end_slot]] inclusive. *)
Definition inWindow (startSlot endSlot slot : Z) : bool :=
  (startSlot <=? slot) && (slot <=? endSlot).

Fixpoint insertBySlot (p : Z * Root) (l : list (Z * Root)) : list (Z * Root) :=
  match l with
  | [] => [p]
  | q :: l' => if p.1 <=? q.1 then p :: q :: l' else q :: insertBySlot p l'
  end.

(** A stable sort by slot: roots of one slot keep their insertion order. *)
Fixpoint sortBySlot (l : list (Z * Root)) : list (Z * Root) :=
  match l with
  | [] => []
  | p :: l' => insertBySlot p (sortBySlot l')
  end.

(** Modelled from the spec: [block_roots(start_slot, end_slot)] returns every
    persisted block root whose slot lies in the window, in ascending slot
    order, siblings of one slot in insertion order. *)
Definition candidate {E : Env} (db : Store) (startSlot endSlot : Z) (r : Root) : option (Z * Root) :=
  match blocks db !! r with
  | Some b => if inWindow startSlot endSlot (ethpb.Slot b) then Some (ethpb.Slot b, r) else None
  | None => None
  end.

Definition Store_BlockRoots {E : Env} (db : Store) (startSlot endSlot : Z) : list Root :=
  snd <$> sortBySlot (omap (candidate db startSlot endSlot) (blockOrder db)).

(** Modelled from the spec: [save_state(state, root)] and
    [save_hot_summary(summary)]; a summary is kept under its latest root,
    where [hot_summary(root)] looks for it. *)
Definition Store_SaveState {E : Env} (db : Store) (state : BeaconState) (root : Root) : Store :=
  {| states := <[root := state]> (states db); summaries := summaries db;
     blocks := blocks db; blockOrder := blockOrder db; genesisRoot := genesisRoot db |}.

Definition Store_SaveHotStateSummary {E : Env} (db : Store) (summary : pb.HotStateSummary) : Store :=
  {| states := states db; summaries := <[pb.LatestRoot summary := summary]> (summaries db);
     blocks := blocks db; blockOrder := blockOrder db; genesisRoot := genesisRoot db |}.

(** Modelled from the spec: [SaveBlock], which the tests of the package call,
    keeps the block under its hash (section 9: blocks are stored by root,
    keyed by content hash). *)
Definition Store_SaveBlock {E : Env} (db : Store) (b : ethpb.BeaconBlock) : outcome Store :=
  match HashTreeRoot b with
  | Some root =>
    Ok {| states := states db; summaries := summaries db;
          blocks := <[root := b]> (blocks db);
          blockOrder := match blocks db !! root with
                        | Some _ => blockOrder db
                        | None => blockOrder db ++ [root]
                        end;
          genesisRoot := genesisRoot db |}
  | None => Err ErrHashTreeRoot
  end.

(** Modelled from the spec: [genesis_block()]; the result is nil when the
    store has no genesis block. *)
Definition Store_GenesisBlock {E : Env} (db : Store) : option ethpb.BeaconBlock :=
  match genesisRoot db with
  | Some r => blocks db !! r
  | None => None
  end.

(** ** The service object *)

(** The finalized split point, [splitInfo] in the package. *)
Module SplitInfo.
Record t : Type := { slot : Z; root : Root }.
End SplitInfo.

(** The [State] struct of the package, with the two counters that hot.go
    increments. *)
Record Service {E : Env} : Type := {
  beaconDB : Store;
  epochBoundarySlotToRoot : gmap Z Root;
  splitInfo : SplitInfo.t;
  hotStateSaved : Z;
  hotSummarySaved : Z
}.

Definition withDB {E : Env} (s : Service) (db : Store) : Service :=
  {| beaconDB := db; epochBoundarySlotToRoot := epochBoundarySlotToRoot s;
     splitInfo := splitInfo s; hotStateSaved := hotStateSaved s; hotSummarySaved := hotSummarySaved s |}.

Definition withCache {E : Env} (s : Service) (c : gmap Z Root) : Service :=
  {| beaconDB := beaconDB s; epochBoundarySlotToRoot := c;
     splitInfo := splitInfo s; hotStateSaved := hotStateSaved s; hotSummarySaved := hotSummarySaved s |}.

(** A method of the service: it reads and updates the service and returns a
    value, an error or a panic.  Updates made before a failure stay. *)
Definition M {E : Env} (A : Type) : Type := Service -> outcome A * Service.

#[global] Instance M_ret {E : Env} : MRet M := fun A a s => (Ok a, s).
#[global] Instance M_bind {E : Env} : MBind M := fun A B f m s =>
  match m s with
  | (Ok a, s') => f a s'
  | (Err e, s') => (Err e, s')
  | (Panic p, s') => (Panic p, s')
  end.

Definition fail {E : Env} {A : Type} (e : error) : M A := fun s => (Err e, s).
Definition raise {E : Env} {A : Type} (p : panic) : M A := fun s => (Panic p, s).
Definition gets {E : Env} {A : Type} (f : Service -> A) : M A := fun s => (Ok (f s), s).
Definition modify {E : Env} (f : Service -> Service) : M unit := fun s => (Ok tt, f s).
Definition lift {E : Env} {A : Type} (o : outcome A) : M A := fun s => (o, s).

(** Modelled from the spec: the calls [s.beaconDB.X(ctx, ...)] of hot.go on
    the facade of section 4.1; a lookup that finds nothing returns nil. *)
Definition HasHotStateSummary {E : Env} (blockRoot : Root) : M bool :=
  gets (fun s => bool_decide (is_Some (summaries (beaconDB s) !! blockRoot))).
Definition HotStateSummary {E : Env} (blockRoot : Root) : M (option pb.HotStateSummary) :=
  gets (fun s => summaries (beaconDB s) !! blockRoot).
Definition State {E : Env} (blockRoot : Root) : M (option BeaconState) :=
  gets (fun s => states (beaconDB s) !! blockRoot).
Definition Block {E : Env} (blockRoot : Root) : M (option ethpb.BeaconBlock) :=
  gets (fun s => blocks (beaconDB s) !! blockRoot).
Definition GenesisBlock {E : Env} : M (option ethpb.BeaconBlock) :=
  gets (fun s => Store_GenesisBlock (beaconDB s)).
Definition BlockRoots {E : Env} (startSlot endSlot : Z) : M (list Root) :=
  gets (fun s => Store_BlockRoots (beaconDB s) startSlot endSlot).
Definition SaveState {E : Env} (state : BeaconState) (blockRoot : Root) : M unit :=
  modify (fun s => withDB s (Store_SaveState (beaconDB s) state blockRoot)).
Definition SaveHotStateSummary {E : Env} (summary : pb.HotStateSummary) : M unit :=
  modify (fun s => withDB s (Store_SaveHotStateSummary (beaconDB s) summary)).

(** Modelled from the spec: the accessors of the epoch-boundary cache
    (section 4.3), declared outside hot.go.  hot.go reads the same field as a
    Go map, so [put] is a map store and nothing is evicted. *)
Definition epochBoundaryRoot {E : Env} (slot : Z) : M (option Root) :=
  gets (fun s => epochBoundarySlotToRoot s !! slot).
Definition setEpochBoundaryRoot {E : Env} (slot : Z) (root : Root) : M unit :=
  modify (fun s => withCache s (<[slot := root]> (epochBoundarySlotToRoot s))).

(** [hotStateSaved.Inc()] and [hotSummarySaved.Inc()] *)
Definition hotStateSaved_Inc {E : Env} : M unit :=
  modify (fun s =>
    {| beaconDB := beaconDB s; epochBoundarySlotToRoot := epochBoundarySlotToRoot s;
       splitInfo := splitInfo s; hotStateSaved := hotStateSaved s + 1;
       hotSummarySaved := hotSummarySaved s |}).
Definition hotSummarySaved_Inc {E : Env} : M unit :=
  modify (fun s =>
    {| beaconDB := beaconDB s; epochBoundarySlotToRoot := epochBoundarySlotToRoot s;
       splitInfo := splitInfo s; hotStateSaved := hotStateSaved s;
       hotSummarySaved := hotSummarySaved s + 1 |}).

(** ** The block chain reconstructor and the replayer *)

(** Modelled from the spec: step 4 and 5 of [load_blocks] (section 4.4), whose
    code is in another file of the package.  The candidates are visited from
    the highest slot downward; the one whose root is the cursor is appended
    and its parent becomes the cursor; the walk stops once the cursor
    designates a stored block below [startSlot].  The store keeps a block
    under its hash, so the candidate root stands for [hash(block_c)]. *)
Fixpoint walkCandidates {E : Env} (db : Store) (startSlot : Z) (cands : list Root) (cursor : Root)
  : list ethpb.BeaconBlock :=
  match cands with
  | [] => []
  | c :: cs =>
    match blocks db !! cursor with
    | Some p =>
      if ethpb.Slot p <? startSlot then []
      else if bool_decide (c = cursor)
           then p :: walkCandidates db startSlot cs (ethpb.ParentRoot p)
           else walkCandidates db startSlot cs cursor
    | None => walkCandidates db startSlot cs cursor
    end
  end.

(** Modelled from the spec: [load_blocks(start_slot, end_slot, end_root)]
    (section 4.4) and the tests of the package.  The block for [endRoot] is
    fetched (no such block: [NotFound]); it has to be the end of the chain
    inside the window, that is one of the candidates, or the call fails with
    "end block roots don't match" (a leaf above [endSlot], as in
    [TestLoadBlocks_BadStart]). *)
Definition Store_LoadBlocks {E : Env} (db : Store) (startSlot endSlot : Z) (endRoot : Root)
  : outcome (list ethpb.BeaconBlock) :=
  let R := Store_BlockRoots db startSlot endSlot in
  match blocks db !! endRoot with
  | None => Err ErrBlockNotFound
  | Some endBlock =>
    if bool_decide (endRoot ∈ R)
    then Ok (endBlock :: walkCandidates db startSlot (rev R) (ethpb.ParentRoot endBlock))
    else Err ErrEndBlockRootsMismatch
  end.

(** [s.LoadBlocks(ctx, startSlot, endSlot, endRoot)] *)
Definition LoadBlocks {E : Env} (startSlot endSlot : Z) (endRoot : Root) : M (list ethpb.BeaconBlock) :=
  fun s => (Store_LoadBlocks (beaconDB s) startSlot endSlot endRoot, s).





(** Modelled from the spec: one step of [replay] (section 4.5): a block above
    the start state's slot is applied after the empty slots before it. *)
Definition replayBlock {E : Env} (startSlot : Z) (current : outcome BeaconState) (b : ethpb.BeaconBlock)
  : outcome BeaconState :=
  match current with
  | Ok st =>
    if startSlot <? ethpb.Slot b then
      match (if StateSlot st <? ethpb.Slot b then ProcessSlots st (ethpb.Slot b) else Some st) with
      | Some st' => orErr ErrStateTransition (ExecuteStateTransition st' b)
      | None => Err ErrStateTransition
      end
    else Ok st
  | Err e => Err e
  | Panic p => Panic p
  end.

(** Modelled from the spec: [replay(start_state, blocks, target_slot)]
    (section 4.5), whose code is in another file of the package.  The blocks
    come leaf first and are applied oldest first; the empty slots up to
    [targetSlot] follow; a target below the reached slot is
    [ReplayPastTarget]. *)
Definition Store_ReplayBlocks {E : Env} (state : BeaconState) (blks : list ethpb.BeaconBlock)
  (targetSlot : Z) : outcome BeaconState :=
  match fold_left (replayBlock (StateSlot state)) (rev blks) (Ok state) with
  | Ok st =>
    if targetSlot <? StateSlot st then Err ErrReplayPastTarget
    else if StateSlot st <? targetSlot then orErr ErrStateTransition (ProcessSlots st targetSlot)
    else Ok st
  | Err e => Err e
  | Panic p => Panic p
  end.

(** [s.ReplayBlocks(ctx, state, blks, targetSlot)] *)
Definition ReplayBlocks {E : Env} (state : BeaconState) (blks : list ethpb.BeaconBlock)
  (targetSlot : Z) : M BeaconState :=
  lift (Store_ReplayBlocks state blks targetSlot).

(** ** hot.go *)

(** [HotStateExists] returns true if the corresponding state of the input
    block either exists in the DB or it can be generated by state gen. *)
Definition HotStateExists {E : Env} (blockRoot : Root) : M bool :=
  HasHotStateSummary blockRoot.

(** [rs[len(rs)-1]] *)
Definition lastIndex {E : Env} (rs : list Root) : M Root :=
  match last rs with
  | Some r => mret r
  | None => raise IndexOutOfRange
  end.

(** [st.Slot()] on a pointer that the database returned: a nil pointer is
    dereferenced. *)
Definition Slot_of {E : Env} (st : option BeaconState) : M Z :=
  match st with
  | Some st => mret (StateSlot st)
  | None => raise NilPointerDereference
  end.

Definition deref {E : Env} {A : Type} (p : option A) : M A :=
  match p with
  | Some a => mret a
  | None => raise NilPointerDereference
  end.

(** This finds the last valid state from searching backwards starting at
    input slot and returns the root of the block which is used to process the
    state. *)
Definition handleLastValidState {E : Env} (slot : Z) : M Root :=
  splitSlot ← gets (fun s => SplitInfo.slot (splitInfo s));
  rs ← BlockRoots splitSlot slot;
  lastRoot ← lastIndex rs;
  cached ← epochBoundaryRoot (wrap64 (slot - SlotsPerEpoch));
  let r := default zeroRoot cached in
  startState ← State r;
  startSlot ← Slot_of startState;
  blks ← LoadBlocks (wrap64 (startSlot + 1)) slot lastRoot;
  startState ← deref startState;
  startState ← ReplayBlocks startState blks slot;
  SaveState startState lastRoot;;
  mret lastRoot.

(** This finds the last valid block from searching backwards starting at
    input slot and returns the root of the block. *)
Definition getLastValidBlock {E : Env} (targetSlot : Z) : M (Root * Z) :=
  splitSlot ← gets (fun s => SplitInfo.slot (splitInfo s));
  rs ← BlockRoots splitSlot targetSlot;
  lastRoot ← lastIndex rs;
  b ← Block lastRoot;
  b ← deref b;
  mret (lastRoot, ethpb.Slot b).

(** This loads the epoch boundary root of a given state based on the state
    slot.  If the epoch boundary does not have a valid block, it goes back to
    find the last slot which has a valid block. *)
Definition loadEpochBoundaryRoot {E : Env} (blockRoot : Root) (state : BeaconState) : M Root :=
  let epochBoundarySlot := wrap64 (CurrentEpoch state * SlotsPerEpoch) in
  cached ← gets (fun s => epochBoundarySlotToRoot s !! epochBoundarySlot);
  match cached with
  | Some r => mret r
  | None =>
    if StateSlot state =? epochBoundarySlot then mret blockRoot
    else if epochBoundarySlot =? 0 then
      b ← GenesisBlock;
      b ← deref b;
      r ← lift (orErr ErrHashTreeRoot (HashTreeRoot b));
      setEpochBoundaryRoot epochBoundarySlot r;;
      mret r
    else
      rs ← BlockRoots epochBoundarySlot epochBoundarySlot;
      r ← match rs with
          | [] => handleLastValidState epochBoundarySlot
          | [r] => mret r
          | _ => fail ErrIncorrectBoundaryLength
          end;
      setEpochBoundaryRoot epochBoundarySlot r;;
      mret r
  end.

(** This saves a post finalized beacon state in the hot section of the DB.
    On the epoch boundary, it saves a full state.  On an intermediate slot,
    it saves a back pointer to the nearest epoch boundary state. *)
Definition saveHotState {E : Env} (blockRoot : Root) (state : BeaconState) : M unit :=
  (if IsEpochStart (StateSlot state)
   then SaveState state blockRoot;; hotStateSaved_Inc
   else mret tt);;
  epochRoot ← loadEpochBoundaryRoot blockRoot state;
  SaveHotStateSummary {| pb.Slot := StateSlot state;
                         pb.LatestRoot := blockRoot;
                         pb.BoundaryRoot := epochRoot |};;
  hotSummarySaved_Inc.

(** This loads a post finalized beacon state from the hot section of the DB.
    If necessary it will replay blocks from the nearest epoch boundary. *)
Definition loadHotStateByRoot {E : Env} (blockRoot : Root) : M BeaconState :=
  summary ← HotStateSummary blockRoot;
  match summary with
  | None => fail ErrNilHotStateSummary
  | Some summary =>
    let targetSlot := pb.Slot summary in
    boundaryState ← State (pb.BoundaryRoot summary);
    match boundaryState with
    | None => fail ErrNilBoundaryState
    | Some boundaryState =>
      if IsEpochStart targetSlot then mret boundaryState
      else
        blks ← LoadBlocks (wrap64 (StateSlot boundaryState + 1)) targetSlot (pb.LatestRoot summary);
        ReplayBlocks boundaryState blks targetSlot
    end
  end.

(** The last step of [loadHotStateByRoot], as a function of the store: what
    is returned once the summary and the boundary state are at hand. *)
Definition replayFrom {E : Env} (db : Store) (boundaryState : BeaconState)
  (summary : pb.HotStateSummary) : outcome BeaconState :=
  if IsEpochStart (pb.Slot summary) then Ok boundaryState
  else
    match Store_LoadBlocks db (wrap64 (StateSlot boundaryState + 1)) (pb.Slot summary)
            (pb.LatestRoot summary) with
    | Ok blks => Store_ReplayBlocks boundaryState blks (pb.Slot summary)
    | Err e => Err e
    | Panic p => Panic p
    end.

(** This loads a hot state by slot only where the slot lies between the epoch
    boundary points.  This is a slower implementation given slot is the only
    argument.  It require fetching all the blocks between the epoch boundary
    points. *)
Definition loadHotIntermediateStateWithSlot {E : Env} (slot : Z) : M BeaconState :=
  let epochBoundarySlot := StartSlot (SlotToEpoch slot) in
  cached ← epochBoundaryRoot epochBoundarySlot;
  match cached with
  | None => fail ErrBoundaryRootNotCached
  | Some epochBoundaryRoot =>
    epochBoundaryState ← State epochBoundaryRoot;
    '(lastValidRoot, lastValidSlot) ← getLastValidBlock slot;
    boundarySlot ← Slot_of epochBoundaryState;
    replayBlks ← LoadBlocks (wrap64 (boundarySlot + 1)) lastValidSlot lastValidRoot;
    epochBoundaryState ← deref epochBoundaryState;
    ReplayBlocks epochBoundaryState replayBlks slot
  end.

(** ** The test forest

    The fixtures of the package's tests: a state transition that records what
    it applied, a hasher that tells the blocks of the two trees apart, and the
    trees [tree1] and [tree2] themselves. *)
Module Test.

(** A state is its slot and the slots of the blocks applied to it, newest
    first. *)
Record state : Type := { slot : Z; applied : list Z }.

(** The slot is read as a [uint64]. *)
Definition slotOf (st : state) : Z := wrap64 (slot st).

Lemma slotOf_range (st : state) : 0 <= slotOf st < 2 ^ 64.
Proof. apply Z.mod_pos_bound. reflexivity. Qed.

Lemma slotsPerEpoch_range : 0 < 8 < 2 ^ 64.
Proof. split; reflexivity. Qed.

Definition emptyState : state := {| slot := 0; applied := [] |}.

Definition hash (b : ethpb.BeaconBlock) : Root :=
  (ethpb.ParentRoot b * 31 + Z.to_N (ethpb.Slot b) * 7 + ethpb.StateRoot b * 3 + 1)%N.

Definition env : Env := {|
  BeaconState := state;
  StateSlot := slotOf;
  SlotsPerEpoch := 8;
  HashTreeRoot := fun b => Some (hash b);
  ProcessSlots := fun st target =>
    if (slotOf st <=? target) && (target <? 2 ^ 64)
    then Some {| slot := target; applied := applied st |}
    else None;
  ExecuteStateTransition := fun st b =>
    if slotOf st =? ethpb.Slot b
    then Some {| slot := slot st; applied := ethpb.Slot b :: applied st |}
    else None;
  StateSlot_range := slotOf_range;
  SlotsPerEpoch_range := slotsPerEpoch_range
|}.

Definition blk (slot : Z) (parent stateRoot : N) : ethpb.BeaconBlock :=
  {| ethpb.Slot := slot; ethpb.ParentRoot := parent; ethpb.StateRoot := stateRoot |}.

(** The loop of [tree1] and [tree2]: every block is saved, and an empty
    state is saved under the root of its parent. *)
Definition saveTree (db : @Store env) (bs : list ethpb.BeaconBlock) : outcome (@Store env) :=
  fold_left (fun acc b =>
    match acc with
    | Ok db =>
      match Store_SaveBlock (E := env) db b with
      | Ok db' => Ok (Store_SaveState (E := env) db' emptyState (ethpb.ParentRoot b))
      | Err e => Err e
      | Panic p => Panic p
      end
    | _ => acc
    end) bs (Ok db).

Definition genesisRoot : Root := 65%N.

(** tree1 constructs the following tree:
<<
    B0 - B1 - - B3 -- B5
           \- B2 -- B4 -- B6 ----- B8
                            \- B7
>> *)
Definition b0 := blk 0 genesisRoot 0%N.
Definition r0 := hash b0.
Definition b1 := blk 1 r0 0%N.
Definition r1 := hash b1.
Definition b2 := blk 2 r1 0%N.
Definition r2 := hash b2.
Definition b3 := blk 3 r1 0%N.
Definition r3 := hash b3.
Definition b4 := blk 4 r2 0%N.
Definition r4 := hash b4.
Definition b5 := blk 5 r3 0%N.
Definition r5 := hash b5.
Definition b6 := blk 6 r4 0%N.
Definition r6 := hash b6.
Definition b7 := blk 7 r6 0%N.
Definition r7 := hash b7.
Definition b8 := blk 8 r6 0%N.
Definition r8 := hash b8.

Definition tree1 (db : @Store env) : outcome (@Store env) :=
  saveTree db [b0; b1; b2; b3; b4; b5; b6; b7; b8].

(** tree2 constructs the following tree:
<<
    B0 - B1
           \- B2
           \- B2
           \- B2
           \- B2 -- B3
>> *)
Definition b21 := blk 2 r1 65%N.
Definition r21 := hash b21.
Definition b22 := blk 2 r1 66%N.
Definition r22 := hash b22.
Definition b23 := blk 2 r1 67%N.
Definition r23 := hash b23.
Definition b24 := blk 2 r1 68%N.
Definition r24 := hash b24.
Definition b3' := blk 3 r24 0%N.
Definition r3' := hash b3'.

Definition tree2 (db : @Store env) : outcome (@Store env) :=
  saveTree db [b0; b1; b21; b22; b23; b24; b3'].

Definition db1 : @Store env :=
  match tree1 (emptyStore (E := env)) with Ok db => db | _ => emptyStore (E := env) end.
Definition db2 : @Store env :=
  match tree2 (emptyStore (E := env)) with Ok db => db | _ => emptyStore (E := env) end.

(** The first tree without its last block: nothing sits on slot 8. *)
Definition db3 : @Store env :=
  match saveTree (emptyStore (E := env)) [b0; b1; b2; b3; b4; b5; b6; b7] with
  | Ok db => db
  | _ => emptyStore (E := env)
  end.

Definition stateAt (slot : Z) : state := {| slot := slot; applied := [] |}.

(** A child of B8 on slot 9. *)
Definition b9 := blk 9 r8 0%N.
Definition r9 := hash b9.

(** The first tree with B9 saved the way the trees are: an empty state sits
    under the root of B8. *)
Definition db5 : @Store env :=
  match saveTree db1 [b9] with Ok db => db | _ => db1 end.

(** The first tree with the block B9 alone saved: no state sits under the
    root of B8. *)
Definition db6 : @Store env :=
  match Store_SaveBlock (E := env) db1 b9 with Ok db => db | _ => db1 end.


(** A service over a store, split at slot 0, with the given cache. *)
Definition service (db : @Store env) (cache : gmap Z Root) : @Service env :=
  {| beaconDB := db; epochBoundarySlotToRoot := cache;
     splitInfo := {| SplitInfo.slot := 0; SplitInfo.root := zeroRoot |};
     hotStateSaved := 0; hotSummarySaved := 0 |}.

(** A second block on slot 8, beside B8. *)
Definition b8' := blk 8 r6 1%N.
Definition r8' := hash b8'.
Definition db8 : @Store env :=
  match Store_SaveBlock (E := env) db1 b8' with Ok db => db | _ => db1 end.

(** A child of B7 on slot 10, in the tree that has no block on slot 8. *)
Definition b10 := blk 10 r7 0%N.
Definition r10 := hash b10.
Definition db7 : @Store env :=
  match Store_SaveBlock (E := env) db3 b10 with Ok db => db | _ => db3 end.


End Test.

(** * Properties *)

(** ** Running a method *)

Ltac run :=
  repeat progress
    (unfold mbind, M_bind, mret, M_ret, gets, modify, fail, raise, lift,
       HasHotStateSummary, HotStateSummary, State, Block, GenesisBlock, BlockRoots,
       SaveState, SaveHotStateSummary, epochBoundaryRoot, setEpochBoundaryRoot,
       hotStateSaved_Inc, hotSummarySaved_Inc, LoadBlocks, ReplayBlocks,
       lastIndex, Slot_of, deref in *;
     cbn beta iota delta [fst snd] in *).

Lemma run_Ok {E : Env} {A : Type} (m : M A) (s : Service) (a : A) :
  fst (m s) = Ok a -> m s = (Ok a, snd (m s)).
Proof. destruct (m s) as [o s']. cbn [fst snd]. intros ->. reflexivity. Qed.

(** ** The loader and the replayer fail in their own ways only *)

Lemma Store_LoadBlocks_Err {E : Env} (db : Store) (startSlot endSlot : Z) (endRoot : Root) (e : error) :
  Store_LoadBlocks db startSlot endSlot endRoot = Err e ->
  e = ErrBlockNotFound \/ e = ErrEndBlockRootsMismatch.
Proof.
  unfold Store_LoadBlocks.
  destruct (blocks db !! endRoot); [case_bool_decide |]; intros [= <-]; auto.
Qed.

Lemma Store_LoadBlocks_no_Panic {E : Env} (db : Store) (startSlot endSlot : Z) (endRoot : Root) (p : panic) :
  Store_LoadBlocks db startSlot endSlot endRoot <> Panic p.
Proof.
  unfold Store_LoadBlocks.
  destruct (blocks db !! endRoot); [case_bool_decide |]; discriminate.
Qed.

Lemma replayBlock_not_Ok {E : Env} (startSlot : Z) (blks : list ethpb.BeaconBlock) (o : outcome BeaconState) :
  isOk o = false ->
  fold_left (replayBlock startSlot) blks o = o.
Proof.
  induction blks as [| b blks IH]; intros Ho; [reflexivity |].
  cbn [fold_left]. destruct o; [discriminate | apply IH; reflexivity ..].
Qed.

Lemma replayBlock_fold_cases {E : Env} (startSlot : Z) (blks : list ethpb.BeaconBlock) (st : BeaconState) :
  (exists st', fold_left (replayBlock startSlot) blks (Ok st) = Ok st') \/
  fold_left (replayBlock startSlot) blks (Ok st) = Err ErrStateTransition.
Proof.
  revert st. induction blks as [| b blks IH]; intros st; [left; eauto |].
  cbn [fold_left replayBlock].
  destruct (startSlot <? ethpb.Slot b); [| apply IH].
  destruct (if StateSlot st <? ethpb.Slot b then ProcessSlots st (ethpb.Slot b) else Some st) as [st' |].
  - destruct (ExecuteStateTransition st' b) as [st'' |]; cbn [orErr]; [apply IH |].
    right. apply replayBlock_not_Ok. reflexivity.
  - right. apply replayBlock_not_Ok. reflexivity.
Qed.

Lemma Store_ReplayBlocks_Err {E : Env} (state : BeaconState) (blks : list ethpb.BeaconBlock)
  (targetSlot : Z) (e : error) :
  Store_ReplayBlocks state blks targetSlot = Err e ->
  e = ErrReplayPastTarget \/ e = ErrStateTransition.
Proof.
  unfold Store_ReplayBlocks.
  destruct (replayBlock_fold_cases (StateSlot state) (rev blks) state) as [[st' ->] | ->].
  - destruct (targetSlot <? StateSlot st'); [intros [= <-]; auto |].
    destruct (StateSlot st' <? targetSlot); [| discriminate].
    destruct (ProcessSlots st' targetSlot); cbn [orErr]; [discriminate | intros [= <-]; auto].
  - intros [= <-]; auto.
Qed.

Lemma Store_ReplayBlocks_no_Panic {E : Env} (state : BeaconState) (blks : list ethpb.BeaconBlock)
  (targetSlot : Z) (p : panic) :
  Store_ReplayBlocks state blks targetSlot <> Panic p.
Proof.
  unfold Store_ReplayBlocks.
  destruct (replayBlock_fold_cases (StateSlot state) (rev blks) state) as [[st' ->] | ->]; [| discriminate].
  destruct (targetSlot <? StateSlot st'); [discriminate |].
  destruct (StateSlot st' <? targetSlot); [| discriminate].
  destruct (ProcessSlots st' targetSlot); discriminate.
Qed.

(** A replay that succeeds ends at its target slot, as soon as advancing
    empty slots does. *)
Lemma Store_ReplayBlocks_slot {E : Env} (state st : BeaconState) (blks : list ethpb.BeaconBlock)
  (targetSlot : Z) :
  (forall st0 t st1, ProcessSlots st0 t = Some st1 -> StateSlot st1 = t) ->
  Store_ReplayBlocks state blks targetSlot = Ok st ->
  StateSlot st = targetSlot.
Proof.
  intros Hps. unfold Store_ReplayBlocks.
  destruct (fold_left _ _ _) as [st' | |]; [| discriminate ..].
  destruct (targetSlot <? StateSlot st') eqn:Hlt; [discriminate |].
  destruct (StateSlot st' <? targetSlot) eqn:Hgt.
  - destruct (ProcessSlots st' targetSlot) eqn:Hp; cbn [orErr]; [| discriminate].
    intros [= <-]. eapply Hps, Hp.
  - intros [= <-]. lia.
Qed.

(** ** HotStateExists *)

(** C10: [HotStateExists] returns exactly what [HasHotStateSummary] returns
    for the root, reads nothing else and leaves the service as it is: its
    answer stays the same whatever states, blocks and genesis root the store
    holds, so it can be [true] for a root whose state cannot be loaded (in
    the test store, a summary whose boundary state is absent). *)
Theorem HotStateExists_is_summary_check {E : Env} (s : Service) (blockRoot : Root) :
  HotStateExists blockRoot s = HasHotStateSummary blockRoot s /\
  HotStateExists blockRoot s =
    (Ok (bool_decide (is_Some (summaries (beaconDB s) !! blockRoot))), s) /\
  (forall sts blks order g,
     fst (HotStateExists blockRoot
            (withDB s {| states := sts; summaries := summaries (beaconDB s);
                         blocks := blks; blockOrder := order; genesisRoot := g |}))
     = fst (HotStateExists blockRoot s)) /\
  (let s0 := Test.service
                (Store_SaveHotStateSummary (E := Test.env) Test.db1
                   {| pb.Slot := 9; pb.LatestRoot := 99%N; pb.BoundaryRoot := Test.r8 |}) ∅ in
   fst (HotStateExists (E := Test.env) 99%N s0) = Ok true /\
   fst (loadHotStateByRoot (E := Test.env) 99%N s0) = Err ErrNilBoundaryState).
Proof.
  split; [reflexivity |].
  split; [reflexivity |].
  split; [intros; reflexivity |].
  split; vm_compute; reflexivity.
Qed.

(** ** The backward scans *)

(** C9: when the range query over [[split.slot, slot]] returns no root,
    [handleLastValidState] and [getLastValidBlock] index [rs[len(rs)-1]] out
    of range: both panic and no error value is returned; with at least one
    root in the window neither raises that panic. *)
Theorem backward_scans_index_out_of_range {E : Env} (s : Service) (slot : Z) :
  (Store_BlockRoots (beaconDB s) (SplitInfo.slot (splitInfo s)) slot = [] <->
   handleLastValidState slot s = (Panic IndexOutOfRange, s)) /\
  (Store_BlockRoots (beaconDB s) (SplitInfo.slot (splitInfo s)) slot = [] <->
   getLastValidBlock slot s = (Panic IndexOutOfRange, s)).
Proof.
  split; split.
  - intros Hrs. unfold handleLastValidState. run. rewrite Hrs. reflexivity.
  - unfold handleLastValidState. run.
    destruct (Store_BlockRoots _ _ _) as [| r rs] eqn:Hrs using rev_ind; [reflexivity |].
    rewrite last_snoc. run.
    destruct (states (beaconDB s) !! _) as [st |]; run; [| discriminate].
    destruct (Store_LoadBlocks _ _ _ _) as [blks | e | p] eqn:Hl; [| discriminate |].
    + destruct (Store_ReplayBlocks _ _ _) as [st' | e | p] eqn:Hr; [discriminate .. |].
      exfalso. eapply Store_ReplayBlocks_no_Panic, Hr.
    + exfalso. eapply Store_LoadBlocks_no_Panic, Hl.
  - intros Hrs. unfold getLastValidBlock. run. rewrite Hrs. reflexivity.
  - unfold getLastValidBlock. run.
    destruct (Store_BlockRoots _ _ _) as [| r rs] eqn:Hrs using rev_ind; [reflexivity |].
    rewrite last_snoc. run.
    destruct (blocks (beaconDB s) !! r); run; discriminate.
Qed.

(** ** Loading a hot state *)

Lemma loadHotStateByRoot_unfold {E : Env} (s : Service) (blockRoot : Root) :
  loadHotStateByRoot blockRoot s =
  (match summaries (beaconDB s) !! blockRoot with
   | None => Err ErrNilHotStateSummary
   | Some summary =>
     match states (beaconDB s) !! pb.BoundaryRoot summary with
     | None => Err ErrNilBoundaryState
     | Some boundaryState => replayFrom (beaconDB s) boundaryState summary
     end
   end, s).
Proof.
  unfold loadHotStateByRoot, replayFrom. run.
  destruct (summaries (beaconDB s) !! blockRoot) as [summary |]; run; [| reflexivity].
  destruct (states (beaconDB s) !! pb.BoundaryRoot summary) as [bst |]; run; [| reflexivity].
  destruct (IsEpochStart (pb.Slot summary)); run; [reflexivity |].
  destruct (Store_LoadBlocks _ _ _ _); run; [| reflexivity ..].
  destruct (Store_ReplayBlocks _ _ _); reflexivity.
Qed.

Lemma replayFrom_Err {E : Env} (db : Store) (bst : BeaconState) (summary : pb.HotStateSummary)
  (e : error) :
  replayFrom db bst summary = Err e ->
  e <> ErrNilHotStateSummary /\ e <> ErrNilBoundaryState.
Proof.
  unfold replayFrom. destruct (IsEpochStart _); [discriminate |].
  destruct (Store_LoadBlocks _ _ _ _) as [blks | e' | p] eqn:Hl; [| | discriminate].
  - intros Hr. apply Store_ReplayBlocks_Err in Hr as [-> | ->]; split; discriminate.
  - intros [= <-]. apply Store_LoadBlocks_Err in Hl as [-> | ->]; split; discriminate.
Qed.

(** C8: [loadHotStateByRoot] fails with "nil hot state summary" (NotFound)
    exactly when the store holds no hot state summary for the root, and with
    "boundary state can't be nil" (MissingBoundary) exactly when a summary
    exists and no state is stored under its boundary root; a failure returns
    no state and leaves the service as it was. *)
Theorem loadHotStateByRoot_lookup_errors {E : Env} (s : Service) (blockRoot : Root) :
  (fst (loadHotStateByRoot blockRoot s) = Err ErrNilHotStateSummary <->
   summaries (beaconDB s) !! blockRoot = None) /\
  (fst (loadHotStateByRoot blockRoot s) = Err ErrNilBoundaryState <->
   exists summary, summaries (beaconDB s) !! blockRoot = Some summary /\
                   states (beaconDB s) !! pb.BoundaryRoot summary = None) /\
  (forall e, fst (loadHotStateByRoot blockRoot s) = Err e ->
             forall st, fst (loadHotStateByRoot blockRoot s) <> Ok st) /\
  snd (loadHotStateByRoot blockRoot s) = s.
Proof.
  rewrite loadHotStateByRoot_unfold. cbn [fst snd].
  destruct (summaries (beaconDB s) !! blockRoot) as [summary |] eqn:Hsum.
  - destruct (states (beaconDB s) !! pb.BoundaryRoot summary) as [bst |] eqn:Hst.
    + repeat split; try congruence.
      * intros Hr. apply replayFrom_Err in Hr as [? _]. congruence.
      * intros Hr. apply replayFrom_Err in Hr as [_ ?]. congruence.
      * intros (summary' & [= <-] & ?). congruence.
    + repeat split; try congruence. eauto.
  - repeat split; try congruence. intros (? & ? & _). congruence.
Qed.

(** ** The epoch boundary of a state *)

Lemma epoch_start_boundary {E : Env} (slot : Z) :
  0 <= slot < 2 ^ 64 ->
  IsEpochStart slot = true <-> slot = wrap64 (SlotToEpoch slot * SlotsPerEpoch).
Proof.
  intros Hrange. unfold IsEpochStart, SlotToEpoch, wrap64.
  pose proof SlotsPerEpoch_range as [Hpos _].
  assert (Hnz : SlotsPerEpoch <> 0) by lia.
  pose proof (Z.div_mod slot SlotsPerEpoch Hnz) as Hdm.
  pose proof (Z.mod_pos_bound slot SlotsPerEpoch Hpos) as Hb.
  assert (0 <= slot / SlotsPerEpoch) by (apply Z.div_pos; lia).
  assert (0 <= slot / SlotsPerEpoch * SlotsPerEpoch) by (apply Z.mul_nonneg_nonneg; lia).
  rewrite Z.eqb_eq.
  set (q := slot / SlotsPerEpoch) in *. set (r := slot mod SlotsPerEpoch) in *.
  rewrite Z.mod_small by lia. lia.
Qed.

(** On the boundary slot itself the resolver answers from the cache or with
    the block root it was given, and changes nothing. *)
Lemma loadEpochBoundaryRoot_boundary_slot {E : Env} (blockRoot : Root) (state : BeaconState)
  (s : Service) :
  StateSlot state = wrap64 (CurrentEpoch state * SlotsPerEpoch) ->
  loadEpochBoundaryRoot blockRoot state s =
  (Ok (default blockRoot (epochBoundarySlotToRoot s !! StateSlot state)), s).
Proof.
  intros Hb. unfold loadEpochBoundaryRoot. run. rewrite <- Hb.
  destruct (epochBoundarySlotToRoot s !! StateSlot state); run; [reflexivity |].
  rewrite Z.eqb_refl. reflexivity.
Qed.

(** The service after [saveHotState] on an epoch boundary. *)
Lemma saveHotState_boundary_slot {E : Env} (blockRoot : Root) (state : BeaconState) (s : Service) :
  StateSlot state = wrap64 (CurrentEpoch state * SlotsPerEpoch) ->
  IsEpochStart (StateSlot state) = true ->
  saveHotState blockRoot state s =
  (Ok tt,
   {| beaconDB :=
        Store_SaveHotStateSummary (Store_SaveState (beaconDB s) state blockRoot)
          {| pb.Slot := StateSlot state; pb.LatestRoot := blockRoot;
             pb.BoundaryRoot := default blockRoot (epochBoundarySlotToRoot s !! StateSlot state) |};
      epochBoundarySlotToRoot := epochBoundarySlotToRoot s;
      splitInfo := splitInfo s;
      hotStateSaved := hotStateSaved s + 1;
      hotSummarySaved := hotSummarySaved s + 1 |}).
Proof.
  intros Hb Hstart. unfold saveHotState. rewrite Hstart. run.
  rewrite loadEpochBoundaryRoot_boundary_slot by exact Hb. run. reflexivity.
Qed.


(** ** Saving a hot state *)

(** The service in which [saveHotState] resolves the boundary root: on an
    epoch start the full state has been saved. *)
Lemma saveHotState_inv {E : Env} (blockRoot : Root) (state : BeaconState) (s s' : Service) :
  saveHotState blockRoot state s = (Ok tt, s') ->
  exists epochRoot s1,
    loadEpochBoundaryRoot blockRoot state
      (snd ((if IsEpochStart (StateSlot state)
             then SaveState state blockRoot;; hotStateSaved_Inc
             else mret tt) s)) = (Ok epochRoot, s1) /\
    beaconDB s' =
      Store_SaveHotStateSummary (beaconDB s1)
        {| pb.Slot := StateSlot state; pb.LatestRoot := blockRoot;
           pb.BoundaryRoot := epochRoot |}.
Proof.
  unfold saveHotState. intros Hsave.
  destruct (IsEpochStart (StateSlot state)); run;
    destruct (loadEpochBoundaryRoot blockRoot state _) as [[epochRoot | e | p] s1];
    run; try discriminate;
    injection Hsave as <-; exists epochRoot, s1; split; reflexivity.
Qed.

(** C7: a successful [saveHotState] persists the summary with the state's
    slot, the block root and the boundary root that [loadEpochBoundaryRoot]
    resolved; on an epoch start the full state is persisted under the block
    root as well. *)
Theorem saveHotState_writes_summary {E : Env} (blockRoot : Root) (state : BeaconState)
  (s s' : Service) :
  saveHotState blockRoot state s = (Ok tt, s') ->
  exists epochRoot,
    fst (loadEpochBoundaryRoot blockRoot state
           (snd ((if IsEpochStart (StateSlot state)
                  then SaveState state blockRoot;; hotStateSaved_Inc
                  else mret tt) s))) = Ok epochRoot /\
    summaries (beaconDB s') !! blockRoot =
      Some {| pb.Slot := StateSlot state; pb.LatestRoot := blockRoot;
              pb.BoundaryRoot := epochRoot |} /\
    (IsEpochStart (StateSlot state) = true ->
     states (beaconDB s') !! blockRoot = Some state).
Proof.
  intros Hsave.
  destruct (saveHotState_inv _ _ _ _ Hsave) as (epochRoot & s1 & Hload & Hdb).
  exists epochRoot. rewrite Hload, Hdb. cbn [fst Store_SaveHotStateSummary summaries states pb.LatestRoot].
  split; [reflexivity |]. split; [apply lookup_insert_eq |].
  intros Hstart. rewrite Hstart in Hload.
  pose proof (proj1 (epoch_start_boundary _ (StateSlot_range state)) Hstart) as Hb.
  rewrite loadEpochBoundaryRoot_boundary_slot in Hload by exact Hb.
  injection Hload as _ <-. run. cbn. apply lookup_insert_eq.
Qed.

(** ** Saving, then loading *)

(** C1 (amended): after a successful [saveHotState], [loadHotStateByRoot]
    finds the summary of the root, with the state's slot.  It fails with
    "boundary state can't be nil" when no state is stored under the resolved
    boundary root; otherwise it returns the boundary state on an epoch start
    and the outcome of replaying the loaded blocks from the boundary state up
    to the summary's slot on an intermediate slot, a failure of the loader or
    of the replayer included.  A state returned on an intermediate slot has
    the saved state's slot, and on an epoch start with no root cached for the
    slot the saved state itself is returned. *)
Theorem save_then_load_hot {E : Env} (blockRoot : Root) (state : BeaconState) (s s' : Service) :
  (forall st0 t st1, ProcessSlots st0 t = Some st1 -> StateSlot st1 = t) ->
  saveHotState blockRoot state s = (Ok tt, s') ->
  exists summary,
    summaries (beaconDB s') !! blockRoot = Some summary /\
    pb.Slot summary = StateSlot state /\
    pb.LatestRoot summary = blockRoot /\
    loadHotStateByRoot blockRoot s' =
      (match states (beaconDB s') !! pb.BoundaryRoot summary with
       | None => Err ErrNilBoundaryState
       | Some boundaryState => replayFrom (beaconDB s') boundaryState summary
       end, s') /\
    (IsEpochStart (StateSlot state) = false ->
     forall st, fst (loadHotStateByRoot blockRoot s') = Ok st -> StateSlot st = StateSlot state) /\
    (IsEpochStart (StateSlot state) = true ->
     epochBoundarySlotToRoot s !! StateSlot state = None ->
     loadHotStateByRoot blockRoot s' = (Ok state, s')).
Proof.
  intros Hps Hsave.
  destruct (saveHotState_inv _ _ _ _ Hsave) as (epochRoot & s1 & Hload & Hdb).
  assert (Hsum : summaries (beaconDB s') !! blockRoot =
                 Some {| pb.Slot := StateSlot state; pb.LatestRoot := blockRoot;
                         pb.BoundaryRoot := epochRoot |}).
  { rewrite Hdb. apply lookup_insert_eq. }
  eexists. split; [exact Hsum |]. cbn [pb.Slot pb.LatestRoot pb.BoundaryRoot].
  split; [reflexivity |]. split; [reflexivity |].
  rewrite loadHotStateByRoot_unfold, Hsum. cbn [pb.BoundaryRoot fst].
  split; [reflexivity |]. split.
  - intros Hstart st.
    destruct (states (beaconDB s') !! epochRoot) as [bst |]; [| discriminate].
    unfold replayFrom. cbn [pb.Slot pb.LatestRoot]. rewrite Hstart.
    destruct (Store_LoadBlocks _ _ _ _) as [blks | |]; [| discriminate ..].
    apply Store_ReplayBlocks_slot, Hps.
  - intros Hstart Hmiss. rewrite Hstart in Hload.
    pose proof (proj1 (epoch_start_boundary _ (StateSlot_range state)) Hstart) as Hb.
    rewrite loadEpochBoundaryRoot_boundary_slot in Hload by exact Hb.
    run. cbn [withDB epochBoundarySlotToRoot] in Hload. rewrite Hmiss in Hload.
    injection Hload as <- <-. rewrite Hdb. cbn.
    rewrite lookup_insert_eq. unfold replayFrom. cbn [pb.Slot]. rewrite Hstart. reflexivity.
Qed.

(** ** Dropping the epoch-boundary cache *)

(** [loadHotIntermediateStateWithSlot] reads the service and leaves it as it
    is; of the cache it reads one entry. *)
Lemma loadHotIntermediateStateWithSlot_unfold {E : Env} (s : Service) (slot : Z) :
  loadHotIntermediateStateWithSlot slot s =
  (match epochBoundarySlotToRoot s !! StartSlot (SlotToEpoch slot) with
   | None => Err ErrBoundaryRootNotCached
   | Some r =>
     match last (Store_BlockRoots (beaconDB s) (SplitInfo.slot (splitInfo s)) slot) with
     | None => Panic IndexOutOfRange
     | Some lastRoot =>
       match blocks (beaconDB s) !! lastRoot with
       | None => Panic NilPointerDereference
       | Some b =>
         match states (beaconDB s) !! r with
         | None => Panic NilPointerDereference
         | Some boundaryState =>
           match Store_LoadBlocks (beaconDB s) (wrap64 (StateSlot boundaryState + 1))
                   (ethpb.Slot b) lastRoot with
           | Ok blks => Store_ReplayBlocks boundaryState blks slot
           | Err e => Err e
           | Panic p => Panic p
           end
         end
       end
     end
   end, s).
Proof.
  unfold loadHotIntermediateStateWithSlot, getLastValidBlock. run.
  destruct (epochBoundarySlotToRoot s !! _) as [r |]; run; [| reflexivity].
  destruct (last _) as [lastRoot |]; run; [| reflexivity].
  destruct (blocks (beaconDB s) !! lastRoot) as [b |]; run; [| reflexivity].
  destruct (states (beaconDB s) !! r) as [bst |]; run; [| reflexivity].
  destruct (Store_LoadBlocks _ _ _ _); run; [| reflexivity ..].
  destruct (Store_ReplayBlocks _ _ _); reflexivity.
Qed.

(** C3 (amended): [loadHotStateByRoot] and [HotStateExists] never read the
    epoch-boundary cache, so their results are the same under any cache, a
    cleared one included.  [loadHotIntermediateStateWithSlot] reads the entry
    of the slot's epoch start: it returns the same result under any cache
    that holds the same entry, and with the cache cleared it fails with
    "epoch boundary root is not cached". *)
Theorem cache_drop {E : Env} (s : Service) (c : gmap Z Root) (blockRoot : Root) (slot : Z) :
  fst (loadHotStateByRoot blockRoot (withCache s c)) = fst (loadHotStateByRoot blockRoot s) /\
  fst (HotStateExists blockRoot (withCache s c)) = fst (HotStateExists blockRoot s) /\
  (c !! StartSlot (SlotToEpoch slot) = epochBoundarySlotToRoot s !! StartSlot (SlotToEpoch slot) ->
   fst (loadHotIntermediateStateWithSlot slot (withCache s c))
   = fst (loadHotIntermediateStateWithSlot slot s)) /\
  loadHotIntermediateStateWithSlot slot (withCache s ∅)
  = (Err ErrBoundaryRootNotCached, withCache s ∅).
Proof.
  rewrite !loadHotStateByRoot_unfold, !loadHotIntermediateStateWithSlot_unfold.
  cbn [fst withCache beaconDB epochBoundarySlotToRoot splitInfo].
  split; [reflexivity |]. split; [reflexivity |].
  split; [intros ->; reflexivity |].
  rewrite lookup_empty. reflexivity.
Qed.

(** ** The skip-slot backfill *)

Lemma handleLastValidState_Err {E : Env} (s : Service) (slot : Z) (e : error) :
  fst (handleLastValidState slot s) = Err e ->
  e = ErrBlockNotFound \/ e = ErrEndBlockRootsMismatch \/
  e = ErrReplayPastTarget \/ e = ErrStateTransition.
Proof.
  unfold handleLastValidState. run.
  destruct (last _) as [lastRoot |]; run; [| discriminate].
  destruct (states (beaconDB s) !! _) as [st |]; run; [| discriminate].
  destruct (Store_LoadBlocks _ _ _ _) as [blks | e' | p] eqn:Hl; run; [| | discriminate].
  - destruct (Store_ReplayBlocks _ _ _) as [st' | e' | p] eqn:Hr; run; [discriminate | | discriminate].
    intros [= <-]. apply Store_ReplayBlocks_Err in Hr. tauto.
  - intros [= <-]. apply Store_LoadBlocks_Err in Hl. tauto.
Qed.

(** C5 (what the code does on a miss): with SlotsPerEpoch = 8, no block
    on slot 8 and an empty epoch-boundary cache, the lookup for slot
    [8 - SlotsPerEpoch] misses and [handleLastValidState 8] goes on with the
    zero root as the key of the start state: it dereferences the nil state
    that the store returns for that key, and when a state happens to be
    stored under the zero root it replays from that state and persists the
    result.  No failure of [handleLastValidState] is ever the missing
    boundary. *)
Theorem handleLastValidState_cache_miss_uses_zero_root :
  let s := Test.service Test.db3 ∅ in
  let s0 := Test.service (Store_SaveState (E := Test.env) Test.db3 (Test.stateAt 0) zeroRoot) ∅ in
  Store_BlockRoots (E := Test.env) Test.db3 8 8 = [] /\
  fst (epochBoundaryRoot (E := Test.env) (wrap64 (8 - 8)) s) = Ok None /\
  fst (handleLastValidState (E := Test.env) 8 s) = Panic NilPointerDereference /\
  fst (handleLastValidState (E := Test.env) 8 s0) = Ok Test.r7 /\
  states (beaconDB (snd (handleLastValidState (E := Test.env) 8 s0))) !! Test.r7
  = Some {| Test.slot := 8; Test.applied := [7; 6; 4; 2; 1] |} /\
  (forall (E : Env) (s : Service) (slot : Z) (e : error),
     fst (handleLastValidState slot s) = Err e ->
     e <> ErrNilBoundaryState /\ e <> ErrBoundaryRootNotCached).
Proof.
  cbv zeta.
  split; [vm_compute; reflexivity |].
  split; [vm_compute; reflexivity |].
  split; [vm_compute; reflexivity |].
  split; [vm_compute; reflexivity |].
  split; [vm_compute; reflexivity |].
  intros E s slot e He.
  apply handleLastValidState_Err in He as [-> | [-> | [-> | ->]]]; split; discriminate.
Qed.

(** ** The block chain reconstructor *)

Lemma insertBySlot_Permutation (p : Z * Root) (l : list (Z * Root)) :
  insertBySlot p l ≡ₚ p :: l.
Proof.
  induction l as [| q l IH]; cbn [insertBySlot]; [reflexivity |].
  destruct (p.1 <=? q.1); [reflexivity |].
  rewrite IH. apply Permutation_swap.
Qed.

Lemma sortBySlot_Permutation (l : list (Z * Root)) : sortBySlot l ≡ₚ l.
Proof.
  induction l as [| p l IH]; cbn [sortBySlot]; [reflexivity |].
  rewrite insertBySlot_Permutation, IH. reflexivity.
Qed.

(** The candidates of a window are the inserted roots whose block sits in the
    window. *)
Lemma elem_of_Store_BlockRoots {E : Env} (db : Store) (startSlot endSlot : Z) (r : Root) :
  r ∈ Store_BlockRoots db startSlot endSlot <->
  r ∈ blockOrder db /\
  exists b, blocks db !! r = Some b /\ inWindow startSlot endSlot (ethpb.Slot b) = true.
Proof.
  unfold Store_BlockRoots. rewrite sortBySlot_Permutation.
  rewrite list_elem_of_fmap. split.
  - intros ([sl r'] & -> & Hin). apply list_elem_of_omap in Hin as (r0 & Hr0 & Hc).
    unfold candidate in Hc.
    destruct (blocks db !! r0) as [b |] eqn:Hb; [| discriminate].
    destruct (inWindow _ _ _) eqn:Hw; [| discriminate].
    injection Hc as <- <-. eauto.
  - intros (Hin & b & Hb & Hw). exists (ethpb.Slot b, r). split; [reflexivity |].
    apply list_elem_of_omap. exists r. split; [exact Hin |].
    unfold candidate. rewrite Hb, Hw. reflexivity.
Qed.






(** The tests of the package, on the two trees. *)
Example TestLoadBlocks_FirstBranch :
  Store_LoadBlocks (E := Test.env) Test.db1 0 8 Test.r8
  = Ok [Test.b8; Test.b6; Test.b4; Test.b2; Test.b1; Test.b0].
Proof. vm_compute. reflexivity. Qed.

Example TestLoadBlocks_SecondBranch :
  Store_LoadBlocks (E := Test.env) Test.db1 0 5 Test.r5
  = Ok [Test.b5; Test.b3; Test.b1; Test.b0].
Proof. vm_compute. reflexivity. Qed.

Example TestLoadBlocks_ThirdBranch :
  Store_LoadBlocks (E := Test.env) Test.db1 0 7 Test.r7
  = Ok [Test.b7; Test.b6; Test.b4; Test.b2; Test.b1; Test.b0].
Proof. vm_compute. reflexivity. Qed.

Example TestLoadBlocks_SameSlots :
  Store_LoadBlocks (E := Test.env) Test.db2 0 3 Test.r3'
  = Ok [Test.b3'; Test.b24; Test.b1; Test.b0].
Proof. vm_compute. reflexivity. Qed.

Example TestLoadBlocks_BadStart :
  match Store_LoadBlocks (E := Test.env) Test.db1 0 5 Test.r8 with
  | Err e => Error e
  | _ => EmptyString
  end = "end block roots don't match"%string.
Proof. vm_compute. reflexivity. Qed.


(** C6: in the first tree, [load_blocks(0, 5, root(B8))] with B8 on slot 8
    fails with "end block roots don't match"; every call whose end block sits
    above [endSlot] fails with that error, and a call whose end block is
    stored either fails with it or returns a chain that starts with the block
    kept under [endRoot]. *)
Theorem LoadBlocks_end_root_mismatch :
  ethpb.Slot Test.b8 = 8 /\
  Store_LoadBlocks (E := Test.env) Test.db1 0 5 Test.r8 = Err ErrEndBlockRootsMismatch /\
  Error ErrEndBlockRootsMismatch = "end block roots don't match"%string /\
  (forall (E : Env) (db : Store) (startSlot endSlot : Z) (endRoot : Root) (endBlock : ethpb.BeaconBlock),
     blocks db !! endRoot = Some endBlock ->
     endSlot < ethpb.Slot endBlock ->
     Store_LoadBlocks db startSlot endSlot endRoot = Err ErrEndBlockRootsMismatch) /\
  (forall (E : Env) (db : Store) (startSlot endSlot : Z) (endRoot : Root) (endBlock : ethpb.BeaconBlock),
     blocks db !! endRoot = Some endBlock ->
     Store_LoadBlocks db startSlot endSlot endRoot = Err ErrEndBlockRootsMismatch \/
     exists rest, Store_LoadBlocks db startSlot endSlot endRoot = Ok (endBlock :: rest)).
Proof.
  split; [reflexivity |].
  split; [vm_compute; reflexivity |].
  split; [reflexivity |].
  split.
  - intros E db startSlot endSlot endRoot endBlock Hend Hslot.
    unfold Store_LoadBlocks. rewrite Hend.
    case_bool_decide as Hin; [| reflexivity].
    apply elem_of_Store_BlockRoots in Hin as (_ & b & Hb & Hw).
    rewrite Hend in Hb. injection Hb as <-. unfold inWindow in Hw. lia.
  - intros E db startSlot endSlot endRoot endBlock Hend.
    unfold Store_LoadBlocks. rewrite Hend.
    case_bool_decide; [right; eauto | left; reflexivity].
Qed.

(** ** Instances on the test forest *)

Lemma Test_ProcessSlots_slot (st0 : @BeaconState Test.env) (t : Z) (st1 : @BeaconState Test.env) :
  ProcessSlots (Env := Test.env) st0 t = Some st1 -> StateSlot (Env := Test.env) st1 = t.
Proof.
  cbn. destruct (Test.slotOf st0 <=? t) eqn:Hle; [| discriminate].
  destruct (t <? 2 ^ 64) eqn:Hlt; [| discriminate]. intros [= <-].
  pose proof (Test.slotOf_range st0). unfold Test.slotOf, wrap64. cbn [Test.slot].
  apply Z.mod_small. lia.
Qed.

(** Saving a state on slot 9 under the root of B9 and loading it back: the
    summary is found and the state that comes back is replayed from the state
    kept under the root of B8. *)
Lemma save_then_load_hot_witness :
  fst (loadHotStateByRoot (E := Test.env) Test.r9
         (snd (saveHotState (E := Test.env) Test.r9 (Test.stateAt 9) (Test.service Test.db5 ∅))))
  = Ok {| Test.slot := 9; Test.applied := [9; 8; 6; 4; 2; 1] |} /\
  exists summary,
    summaries (beaconDB (snd (saveHotState (E := Test.env) Test.r9 (Test.stateAt 9)
                                (Test.service Test.db5 ∅)))) !! Test.r9 = Some summary /\
    pb.Slot summary = 9.
Proof.
  split; [vm_compute; reflexivity |].
  destruct (save_then_load_hot (E := Test.env) Test.r9 (Test.stateAt 9)
              (Test.service Test.db5 ∅)
              (snd (saveHotState (E := Test.env) Test.r9 (Test.stateAt 9) (Test.service Test.db5 ∅))))
    as (summary & Hsum & Hslot & _).
  - exact Test_ProcessSlots_slot.
  - apply run_Ok. vm_compute. reflexivity.
  - exists summary. split; [exact Hsum | exact Hslot].
Defined.

(** A save that cannot be loaded back: a state on slot 9 is saved under the
    root of B9 while no state is kept under the root of B8, the block on the
    boundary slot 8; the save succeeds and the load fails. *)
Lemma save_then_load_hot_missing_boundary :
  fst (saveHotState (E := Test.env) Test.r9 (Test.stateAt 9) (Test.service Test.db6 ∅)) = Ok tt /\
  fst (loadHotStateByRoot (E := Test.env) Test.r9
         (snd (saveHotState (E := Test.env) Test.r9 (Test.stateAt 9) (Test.service Test.db6 ∅))))
  = Err ErrNilBoundaryState.
Proof. split; vm_compute; reflexivity. Qed.



(** Clearing the cache changes a result: with the root of B0 cached for slot
    0, [loadHotIntermediateStateWithSlot 3] returns a state; with the cache
    cleared it fails. *)
Lemma cache_drop_by_slot_fails :
  fst (loadHotIntermediateStateWithSlot (E := Test.env) 3 (Test.service Test.db1 {[ 0 := Test.r0 ]}))
  = Ok {| Test.slot := 3; Test.applied := [3; 1] |} /\
  fst (loadHotIntermediateStateWithSlot (E := Test.env) 3
         (withCache (Test.service Test.db1 {[ 0 := Test.r0 ]}) ∅))
  = Err ErrBoundaryRootNotCached.
Proof. split; vm_compute; reflexivity. Qed.



(** Saving a state on slot 8: the summary and the full state are both kept
    under the root. *)
Lemma saveHotState_writes_summary_witness :
  exists epochRoot,
    summaries (beaconDB (snd (saveHotState (E := Test.env) 99%N (Test.stateAt 8)
                                (Test.service Test.db1 ∅)))) !! 99%N
    = Some {| pb.Slot := 8; pb.LatestRoot := 99%N; pb.BoundaryRoot := epochRoot |} /\
    states (beaconDB (snd (saveHotState (E := Test.env) 99%N (Test.stateAt 8)
                             (Test.service Test.db1 ∅)))) !! 99%N
    = Some (Test.stateAt 8).
Proof.
  destruct (saveHotState_writes_summary (E := Test.env) 99%N (Test.stateAt 8)
              (Test.service Test.db1 ∅)
              (snd (saveHotState (E := Test.env) 99%N (Test.stateAt 8) (Test.service Test.db1 ∅))))
    as (epochRoot & _ & Hsum & Hfull).
  - apply run_Ok. vm_compute. reflexivity.
  - exists epochRoot. split; [exact Hsum | apply Hfull; vm_compute; reflexivity].
Defined.

(** * Further properties of hot.go *)

(** ** The two resolvers, step by step *)

Lemma handleLastValidState_unfold {E : Env} (s : Service) (slot : Z) :
  handleLastValidState slot s =
  match last (Store_BlockRoots (beaconDB s) (SplitInfo.slot (splitInfo s)) slot) with
  | None => (Panic IndexOutOfRange, s)
  | Some lastRoot =>
    match states (beaconDB s)
            !! default zeroRoot (epochBoundarySlotToRoot s !! wrap64 (slot - SlotsPerEpoch)) with
    | None => (Panic NilPointerDereference, s)
    | Some startState =>
      match Store_LoadBlocks (beaconDB s) (wrap64 (StateSlot startState + 1)) slot lastRoot with
      | Ok blks =>
        match Store_ReplayBlocks startState blks slot with
        | Ok st => (Ok lastRoot, withDB s (Store_SaveState (beaconDB s) st lastRoot))
        | Err e => (Err e, s)
        | Panic p => (Panic p, s)
        end
      | Err e => (Err e, s)
      | Panic p => (Panic p, s)
      end
    end
  end.
Proof.
  unfold handleLastValidState. run.
  destruct (last _) as [lastRoot |]; run; [| reflexivity].
  destruct (states (beaconDB s) !! _) as [st |]; run; [| reflexivity].
  destruct (Store_LoadBlocks _ _ _ _); run; [| reflexivity ..].
  destruct (Store_ReplayBlocks _ _ _); reflexivity.
Qed.

Lemma loadEpochBoundaryRoot_unfold {E : Env} (blockRoot : Root) (state : BeaconState) (s : Service) :
  let B := wrap64 (CurrentEpoch state * SlotsPerEpoch) in
  loadEpochBoundaryRoot blockRoot state s =
  match epochBoundarySlotToRoot s !! B with
  | Some r => (Ok r, s)
  | None =>
    if StateSlot state =? B then (Ok blockRoot, s)
    else if B =? 0 then
      match Store_GenesisBlock (beaconDB s) with
      | None => (Panic NilPointerDereference, s)
      | Some b =>
        match HashTreeRoot b with
        | Some r => (Ok r, withCache s (<[B := r]> (epochBoundarySlotToRoot s)))
        | None => (Err ErrHashTreeRoot, s)
        end
      end
    else
      match Store_BlockRoots (beaconDB s) B B with
      | [] =>
        match handleLastValidState B s with
        | (Ok r, s1) => (Ok r, withCache s1 (<[B := r]> (epochBoundarySlotToRoot s1)))
        | (Err e, s1) => (Err e, s1)
        | (Panic p, s1) => (Panic p, s1)
        end
      | [r] => (Ok r, withCache s (<[B := r]> (epochBoundarySlotToRoot s)))
      | _ :: _ :: _ => (Err ErrIncorrectBoundaryLength, s)
      end
  end.
Proof.
  cbv zeta. unfold loadEpochBoundaryRoot. run.
  destruct (epochBoundarySlotToRoot s !! _) as [r |]; run; [reflexivity |].
  destruct (StateSlot state =? _); run; [reflexivity |].
  destruct (_ =? 0); run.
  - destruct (Store_GenesisBlock (beaconDB s)) as [b |]; run; [| reflexivity].
    destruct (HashTreeRoot b); reflexivity.
  - destruct (Store_BlockRoots _ _ _) as [| r [| r' rs]]; run; [| reflexivity ..].
    destruct (handleLastValidState _ s) as [[r | e | p] s1]; reflexivity.
Qed.

(** ** The range query is sorted by slot *)

Lemma insertBySlot_sorted (p : Z * Root) (l : list (Z * Root)) :
  StronglySorted (fun a b : Z * Root => a.1 <= b.1) l ->
  StronglySorted (fun a b : Z * Root => a.1 <= b.1) (insertBySlot p l).
Proof.
  induction 1 as [| q l Hs IH Hall]; cbn [insertBySlot]; [repeat constructor |].
  destruct (p.1 <=? q.1) eqn:Hle.
  - constructor; [constructor; assumption |].
    constructor; [lia |]. eapply Forall_impl; [exact Hall |]. cbn beta. intros; lia.
  - constructor; [exact IH |].
    rewrite insertBySlot_Permutation. constructor; [lia | exact Hall].
Qed.

Lemma sortBySlot_sorted (l : list (Z * Root)) :
  StronglySorted (fun a b : Z * Root => a.1 <= b.1) (sortBySlot l).
Proof.
  induction l as [| p l IH]; cbn [sortBySlot]; [constructor | apply insertBySlot_sorted, IH].
Qed.

Lemma sorted_last_max (l : list (Z * Root)) (x y : Z * Root) :
  StronglySorted (fun a b : Z * Root => a.1 <= b.1) l ->
  last l = Some x -> y ∈ l -> y.1 <= x.1.
Proof.
  induction 1 as [| q l Hs IH Hall]; intros Hlast Hy; [discriminate |].
  destruct l as [| q' l'].
  - injection Hlast as <-. apply list_elem_of_singleton in Hy as ->. lia.
  - rewrite last_cons_cons in Hlast.
    apply elem_of_cons in Hy as [-> | Hy]; [| apply IH; assumption].
    rewrite Forall_forall in Hall. apply Hall. apply last_Some_elem_of, Hlast.
Qed.

(** The last root of a range query designates a stored block of the window,
    and no inserted block of the window sits on a higher slot. *)
Lemma last_Store_BlockRoots {E : Env} (db : Store) (startSlot endSlot : Z) (r : Root) :
  last (Store_BlockRoots db startSlot endSlot) = Some r ->
  exists b, blocks db !! r = Some b /\
            startSlot <= ethpb.Slot b <= endSlot /\
            forall r' b', r' ∈ blockOrder db -> blocks db !! r' = Some b' ->
                          startSlot <= ethpb.Slot b' <= endSlot ->
                          ethpb.Slot b' <= ethpb.Slot b.
Proof.
  unfold Store_BlockRoots. rewrite fmap_last.
  destruct (last _) as [[sl r0] |] eqn:Hlast; [| discriminate].
  cbn. intros [= ->].
  pose proof (last_Some_elem_of _ _ Hlast) as Hin.
  rewrite sortBySlot_Permutation in Hin.
  apply list_elem_of_omap in Hin as (r1 & _ & Hc). unfold candidate in Hc.
  destruct (blocks db !! r1) as [b |] eqn:Hb; [| discriminate].
  destruct (inWindow _ _ _) eqn:Hw; [| discriminate].
  injection Hc as <- <-. exists b. split; [exact Hb |].
  split; [unfold inWindow in Hw; lia |].
  intros r' b' Hr' Hb' Hw'.
  change (ethpb.Slot b' <= ethpb.Slot b) with ((ethpb.Slot b', r').1 <= (ethpb.Slot b, r1).1).
  eapply sorted_last_max; [apply sortBySlot_sorted | exact Hlast |].
  rewrite sortBySlot_Permutation. apply list_elem_of_omap. exists r'.
  split; [exact Hr' |]. unfold candidate. rewrite Hb'.
  unfold inWindow. replace (_ && _) with true by (symmetry; apply andb_true_iff; lia).
  reflexivity.
Qed.

(** ** What the resolvers return and write *)

Lemma handleLastValidState_Ok_inv {E : Env} (s s' : Service) (slot : Z) (lastRoot : Root) :
  handleLastValidState slot s = (Ok lastRoot, s') ->
  exists startState blks st,
    last (Store_BlockRoots (beaconDB s) (SplitInfo.slot (splitInfo s)) slot) = Some lastRoot /\
    states (beaconDB s)
      !! default zeroRoot (epochBoundarySlotToRoot s !! wrap64 (slot - SlotsPerEpoch))
    = Some startState /\
    Store_LoadBlocks (beaconDB s) (wrap64 (StateSlot startState + 1)) slot lastRoot = Ok blks /\
    Store_ReplayBlocks startState blks slot = Ok st /\
    s' = withDB s (Store_SaveState (beaconDB s) st lastRoot).
Proof.
  rewrite handleLastValidState_unfold.
  destruct (last _) as [r |]; [| discriminate].
  destruct (states (beaconDB s) !! _) as [startState |]; [| discriminate].
  destruct (Store_LoadBlocks _ _ _ _) as [blks | |] eqn:Hl; [| discriminate ..].
  destruct (Store_ReplayBlocks _ _ _) as [st | |] eqn:Hr; [| discriminate ..].
  intros [= -> <-]. exists startState, blks, st. auto.
Qed.

Lemma handleLastValidState_not_Ok {E : Env} (s : Service) (slot : Z) :
  isOk (fst (handleLastValidState slot s)) = false ->
  snd (handleLastValidState slot s) = s.
Proof.
  rewrite handleLastValidState_unfold.
  destruct (last _) as [r |]; [| reflexivity].
  destruct (states (beaconDB s) !! _) as [startState |]; [| reflexivity].
  destruct (Store_LoadBlocks _ _ _ _) as [blks | |]; [| reflexivity ..].
  destruct (Store_ReplayBlocks _ _ _) as [st | |]; [discriminate | reflexivity ..].
Qed.

Lemma loadEpochBoundaryRoot_cache_hit {E : Env} (blockRoot r : Root) (state : BeaconState)
  (s : Service) :
  epochBoundarySlotToRoot s !! wrap64 (CurrentEpoch state * SlotsPerEpoch) = Some r ->
  loadEpochBoundaryRoot blockRoot state s = (Ok r, s).
Proof. intros Hhit. rewrite loadEpochBoundaryRoot_unfold. cbv zeta. rewrite Hhit. reflexivity. Qed.

(** The ways in which [loadEpochBoundaryRoot] succeeds. *)
Lemma loadEpochBoundaryRoot_Ok_inv {E : Env} (blockRoot root : Root) (state : BeaconState)
  (s s' : Service) :
  let B := wrap64 (CurrentEpoch state * SlotsPerEpoch) in
  loadEpochBoundaryRoot blockRoot state s = (Ok root, s') ->
  (epochBoundarySlotToRoot s !! B = Some root /\ s' = s) \/
  (epochBoundarySlotToRoot s !! B = None /\ StateSlot state = B /\ root = blockRoot /\ s' = s) \/
  (epochBoundarySlotToRoot s !! B = None /\ StateSlot state <> B /\
   exists s1,
     s' = withCache s1 (<[B := root]> (epochBoundarySlotToRoot s1)) /\
     ((B = 0 /\ s1 = s /\
       exists b, Store_GenesisBlock (beaconDB s) = Some b /\ HashTreeRoot b = Some root) \/
      (B <> 0 /\ s1 = s /\ Store_BlockRoots (beaconDB s) B B = [root]) \/
      (B <> 0 /\ Store_BlockRoots (beaconDB s) B B = [] /\
       handleLastValidState B s = (Ok root, s1)))).
Proof.
  intros B. rewrite loadEpochBoundaryRoot_unfold. cbv zeta. fold B.
  destruct (epochBoundarySlotToRoot s !! B) as [r |] eqn:Hc; [intros [= -> <-]; auto |].
  destruct (StateSlot state =? B) eqn:Hs;
    [intros [= <- <-]; right; left; repeat split; lia |].
  intros Hrun. right; right. split; [reflexivity |]. split; [lia |]. revert Hrun.
  destruct (B =? 0) eqn:Hz.
  - destruct (Store_GenesisBlock (beaconDB s)) as [b |] eqn:Hg; [| discriminate].
    destruct (HashTreeRoot b) as [r |] eqn:Hh; [| discriminate].
    intros [= -> <-]. exists s. split; [reflexivity |]. left.
    split; [lia |]. split; [reflexivity |]. eauto.
  - destruct (Store_BlockRoots (beaconDB s) B B) as [| r [| r' rs]] eqn:Hrs; [| | discriminate].
    + destruct (handleLastValidState B s) as [[r | e | p] s1] eqn:Hh; [| discriminate ..].
      intros [= -> <-]. exists s1. split; [reflexivity |]. right; right.
      split; [lia |]. split; reflexivity.
    + intros [= -> <-]. exists s. split; [reflexivity |]. right; left.
      split; [lia |]. split; reflexivity.
Qed.

Lemma loadEpochBoundaryRoot_not_Ok {E : Env} (blockRoot : Root) (state : BeaconState) (s : Service) :
  isOk (fst (loadEpochBoundaryRoot blockRoot state s)) = false ->
  snd (loadEpochBoundaryRoot blockRoot state s) = s.
Proof.
  rewrite loadEpochBoundaryRoot_unfold. cbv zeta.
  destruct (epochBoundarySlotToRoot s !! _) as [r |]; [reflexivity |].
  destruct (StateSlot state =? _); [reflexivity |].
  destruct (_ =? 0).
  - destruct (Store_GenesisBlock (beaconDB s)) as [b |]; [| reflexivity].
    destruct (HashTreeRoot b); [discriminate | reflexivity].
  - destruct (Store_BlockRoots _ _ _) as [| r [| r' rs]]; [| discriminate | reflexivity].
    pose proof (handleLastValidState_not_Ok s (wrap64 (CurrentEpoch state * SlotsPerEpoch))) as Hn.
    destruct (handleLastValidState _ s) as [[r | e | p] s1]; cbn [fst snd isOk] in *;
      [discriminate | intros _; apply Hn; reflexivity ..].
Qed.

(** X1: a [saveHotState] that does not succeed has written nothing: the
    service, its store and its cache included, is as before; and this can
    only happen on an intermediate slot, a save on an epoch start always
    succeeds. *)
Theorem saveHotState_failure_writes_nothing {E : Env} (blockRoot : Root) (state : BeaconState)
  (s : Service) :
  isOk (fst (saveHotState blockRoot state s)) = false ->
  snd (saveHotState blockRoot state s) = s /\ IsEpochStart (StateSlot state) = false.
Proof.
  destruct (IsEpochStart (StateSlot state)) eqn:Hstart.
  - pose proof (proj1 (epoch_start_boundary _ (StateSlot_range state)) Hstart) as Hb.
    rewrite saveHotState_boundary_slot by assumption. discriminate.
  - unfold saveHotState. rewrite Hstart. run.
    pose proof (loadEpochBoundaryRoot_not_Ok blockRoot state s) as Hn.
    destruct (loadEpochBoundaryRoot blockRoot state s) as [[r | e | p] s1];
      cbn [fst snd isOk] in *; [discriminate | intros _; split; [apply Hn |]; reflexivity ..].
Qed.


(** X3: resolving the boundary root a second time gives the same root and
    changes nothing: [loadEpochBoundaryRoot] is idempotent on the service it
    leaves behind. *)
Theorem loadEpochBoundaryRoot_idempotent {E : Env} (blockRoot root : Root) (state : BeaconState)
  (s s' : Service) :
  loadEpochBoundaryRoot blockRoot state s = (Ok root, s') ->
  loadEpochBoundaryRoot blockRoot state s' = (Ok root, s').
Proof.
  intros Hrun. pose proof Hrun as Hcases.
  apply loadEpochBoundaryRoot_Ok_inv in Hcases
    as [[Hhit ->] | [(_ & _ & _ & ->) | (_ & _ & s1 & -> & _)]].
  - apply loadEpochBoundaryRoot_cache_hit, Hhit.
  - exact Hrun.
  - apply loadEpochBoundaryRoot_cache_hit. cbn. apply lookup_insert_eq.
Qed.

(** X4: [loadEpochBoundaryRoot] fails with "incorrect length for epoch
    boundary root" exactly when nothing is cached for the boundary slot, the
    state is off that slot, the slot is not the genesis slot and the store
    holds more than one block root on it. *)
Theorem loadEpochBoundaryRoot_incorrect_length {E : Env} (blockRoot : Root) (state : BeaconState)
  (s : Service) :
  let B := wrap64 (CurrentEpoch state * SlotsPerEpoch) in
  fst (loadEpochBoundaryRoot blockRoot state s) = Err ErrIncorrectBoundaryLength <->
  epochBoundarySlotToRoot s !! B = None /\ StateSlot state <> B /\ B <> 0 /\
  (2 <= length (Store_BlockRoots (beaconDB s) B B))%nat.
Proof.
  intros B. rewrite loadEpochBoundaryRoot_unfold. cbv zeta. fold B.
  destruct (epochBoundarySlotToRoot s !! B) as [r |];
    [split; [discriminate | intros (? & _); discriminate] |].
  destruct (StateSlot state =? B) eqn:Hs;
    [split; [discriminate | intros (_ & ? & _); lia] |].
  destruct (B =? 0) eqn:Hz.
  - destruct (Store_GenesisBlock (beaconDB s)) as [b |];
      [destruct (HashTreeRoot b) |]; (split; [discriminate | intros (_ & _ & ? & _); lia]).
  - destruct (Store_BlockRoots (beaconDB s) B B) as [| r [| r' rs]] eqn:Hrs; cbn [length].
    + split; [| intros (_ & _ & _ & ?); lia].
      pose proof (handleLastValidState_Err s B) as He.
      destruct (handleLastValidState B s) as [[r | e | p] s1]; cbn [fst] in *; try discriminate.
      intros [= ->]. destruct (He _ eq_refl) as [? | [? | [? | ?]]]; discriminate.
    + split; [discriminate | intros (_ & _ & _ & ?); lia].
    + split; [intros _ | reflexivity]. repeat split; try lia.
Qed.

(** X5: a boundary root that [loadEpochBoundaryRoot] takes from the
    database (nothing cached, the state off its boundary slot [B], [B] not
    the genesis slot) is the root of a stored block on a slot at most [B]; no
    inserted block of the hot window [[split.slot, B]] sits higher, and the
    root is cached for [B] afterwards. *)
Theorem loadEpochBoundaryRoot_from_database {E : Env} (blockRoot root : Root)
  (state : BeaconState) (s s' : Service) :
  let B := wrap64 (CurrentEpoch state * SlotsPerEpoch) in
  loadEpochBoundaryRoot blockRoot state s = (Ok root, s') ->
  epochBoundarySlotToRoot s !! B = None -> StateSlot state <> B -> B <> 0 ->
  epochBoundarySlotToRoot s' !! B = Some root /\
  exists b, blocks (beaconDB s) !! root = Some b /\
            ethpb.Slot b <= B /\
            forall r' b', r' ∈ blockOrder (beaconDB s) ->
                          blocks (beaconDB s) !! r' = Some b' ->
                          SplitInfo.slot (splitInfo s) <= ethpb.Slot b' <= B ->
                          ethpb.Slot b' <= ethpb.Slot b.
Proof.
  cbv zeta. intros Hrun Hmiss Hoff Hnz.
  apply loadEpochBoundaryRoot_Ok_inv in Hrun. cbv zeta in Hrun.
  set (B := wrap64 (CurrentEpoch state * SlotsPerEpoch)) in *.
  destruct Hrun as [[Hhit _] | [(_ & Hon & _) | (_ & _ & s1 & -> & Hs1)]];
    [congruence | contradiction |].
  split; [cbn; apply lookup_insert_eq |].
  destruct Hs1 as [(Hz & _) | [(_ & -> & Hrs) | (_ & _ & Hh)]]; [contradiction | |].
  - assert (Hin : root ∈ Store_BlockRoots (beaconDB s) B B)
      by (rewrite Hrs; apply list_elem_of_here).
    apply elem_of_Store_BlockRoots in Hin as (_ & b & Hb & Hw).
    exists b. split; [exact Hb |]. unfold inWindow in Hw. split; [lia |].
    intros r' b' _ _ Hw'. lia.
  - apply handleLastValidState_Ok_inv in Hh as (_ & _ & _ & Hlast & _).
    apply last_Store_BlockRoots in Hlast as (b & Hb & Hw & Hmax).
    exists b. split; [exact Hb |]. split; [lia | exact Hmax].
Qed.

(** X6: a successful [handleLastValidState] returns the last root of the
    range query over [[split.slot, slot]], the root of a stored block that no
    inserted block of that window sits above; it stores under that root a
    state on slot [slot], as soon as advancing empty slots reaches its target,
    and changes no other state, no summary, no block and no cache entry. *)
Theorem handleLastValidState_backfill {E : Env} (s s' : Service) (slot : Z) (lastRoot : Root) :
  (forall st0 t st1, ProcessSlots st0 t = Some st1 -> StateSlot st1 = t) ->
  handleLastValidState slot s = (Ok lastRoot, s') ->
  last (Store_BlockRoots (beaconDB s) (SplitInfo.slot (splitInfo s)) slot) = Some lastRoot /\
  (exists b, blocks (beaconDB s) !! lastRoot = Some b /\
             SplitInfo.slot (splitInfo s) <= ethpb.Slot b <= slot /\
             forall r' b', r' ∈ blockOrder (beaconDB s) ->
                           blocks (beaconDB s) !! r' = Some b' ->
                           SplitInfo.slot (splitInfo s) <= ethpb.Slot b' <= slot ->
                           ethpb.Slot b' <= ethpb.Slot b) /\
  (exists st, states (beaconDB s') !! lastRoot = Some st /\ StateSlot st = slot) /\
  (forall r, r <> lastRoot -> states (beaconDB s') !! r = states (beaconDB s) !! r) /\
  summaries (beaconDB s') = summaries (beaconDB s) /\
  blocks (beaconDB s') = blocks (beaconDB s) /\
  epochBoundarySlotToRoot s' = epochBoundarySlotToRoot s.
Proof.
  intros Hps Hrun.
  apply handleLastValidState_Ok_inv in Hrun
    as (startState & blks & st & Hlast & _ & _ & Hreplay & ->).
  split; [exact Hlast |].
  split; [apply last_Store_BlockRoots, Hlast |].
  split.
  { exists st. split; [cbn; apply lookup_insert_eq |].
    eapply Store_ReplayBlocks_slot; eassumption. }
  split; [intros r Hr; cbn; apply lookup_insert_ne; congruence |].
  repeat split; reflexivity.
Qed.

(** X7: a successful [getLastValidBlock] returns the root of a stored block
    together with that block's slot; the slot lies in [[split.slot,
    targetSlot]], no inserted block of that window sits on a higher slot, and
    the service is left as it was. *)
Theorem getLastValidBlock_highest {E : Env} (s s' : Service) (targetSlot lastSlot : Z)
  (lastRoot : Root) :
  getLastValidBlock targetSlot s = (Ok (lastRoot, lastSlot), s') ->
  s' = s /\
  exists b, blocks (beaconDB s) !! lastRoot = Some b /\
            lastSlot = ethpb.Slot b /\
            SplitInfo.slot (splitInfo s) <= lastSlot <= targetSlot /\
            forall r' b', r' ∈ blockOrder (beaconDB s) ->
                          blocks (beaconDB s) !! r' = Some b' ->
                          SplitInfo.slot (splitInfo s) <= ethpb.Slot b' <= targetSlot ->
                          ethpb.Slot b' <= lastSlot.
Proof.
  unfold getLastValidBlock. run.
  destruct (last _) as [r |] eqn:Hlast; run; [| discriminate].
  destruct (blocks (beaconDB s) !! r) as [b |] eqn:Hb; run; [| discriminate].
  intros [= -> <- <-]. split; [reflexivity |].
  apply last_Store_BlockRoots in Hlast as (b0 & Hb0 & Hw & Hmax).
  rewrite Hb in Hb0. injection Hb0 as <-.
  exists b. split; [exact Hb |]. split; [reflexivity |]. split; [exact Hw | exact Hmax].
Qed.

(** X8: [loadHotIntermediateStateWithSlot] only reads: the service is left as
    it was.  It fails with "epoch boundary root is not cached" exactly when
    the cache has no root for the start slot of the slot's epoch, and a state
    it returns is on the requested slot, as soon as advancing empty slots
    reaches its target. *)
Theorem loadHotIntermediateStateWithSlot_result {E : Env} (s : Service) (slot : Z) :
  (forall st0 t st1, ProcessSlots st0 t = Some st1 -> StateSlot st1 = t) ->
  snd (loadHotIntermediateStateWithSlot slot s) = s /\
  (fst (loadHotIntermediateStateWithSlot slot s) = Err ErrBoundaryRootNotCached <->
   epochBoundarySlotToRoot s !! StartSlot (SlotToEpoch slot) = None) /\
  (forall st, fst (loadHotIntermediateStateWithSlot slot s) = Ok st -> StateSlot st = slot).
Proof.
  intros Hps. rewrite loadHotIntermediateStateWithSlot_unfold. cbn [fst snd].
  split; [reflexivity |].
  destruct (epochBoundarySlotToRoot s !! _) as [r |];
    [| split; [split; reflexivity | discriminate]].
  destruct (last _) as [lastRoot |]; [| split; [split |]; discriminate].
  destruct (blocks (beaconDB s) !! lastRoot) as [b |]; [| split; [split |]; discriminate].
  destruct (states (beaconDB s) !! r) as [bst |]; [| split; [split |]; discriminate].
  destruct (Store_LoadBlocks _ _ _ _) as [blks | e | p] eqn:Hl.
  - split.
    + split; [| discriminate]. intros Hr.
      apply Store_ReplayBlocks_Err in Hr as [? | ?]; discriminate.
    + intros st Hr. eapply Store_ReplayBlocks_slot; eassumption.
  - split; [| discriminate]. split; [| discriminate].
    intros [= ->]. apply Store_LoadBlocks_Err in Hl as [? | ?]; discriminate.
  - split; [split |]; discriminate.
Qed.


(** ** Saving, once more *)

(** The service that a successful [saveHotState] leaves behind. *)
Lemma saveHotState_Ok_inv {E : Env} (blockRoot : Root) (state : BeaconState) (s s' : Service) :
  saveHotState blockRoot state s = (Ok tt, s') ->
  exists epochRoot s1,
    loadEpochBoundaryRoot blockRoot state
      (snd ((if IsEpochStart (StateSlot state)
             then SaveState state blockRoot;; hotStateSaved_Inc
             else mret tt) s)) = (Ok epochRoot, s1) /\
    s' = {| beaconDB :=
              Store_SaveHotStateSummary (beaconDB s1)
                {| pb.Slot := StateSlot state; pb.LatestRoot := blockRoot;
                   pb.BoundaryRoot := epochRoot |};
            epochBoundarySlotToRoot := epochBoundarySlotToRoot s1;
            splitInfo := splitInfo s1;
            hotStateSaved := hotStateSaved s1;
            hotSummarySaved := hotSummarySaved s1 + 1 |}.
Proof.
  unfold saveHotState. intros Hsave.
  destruct (IsEpochStart (StateSlot state)); run;
    destruct (loadEpochBoundaryRoot blockRoot state _) as [[epochRoot | e | p] s1];
    run; try discriminate;
    injection Hsave as <-; exists epochRoot, s1; split; reflexivity.
Qed.

(** A successful resolution leaves the split point and the counters alone. *)
Lemma loadEpochBoundaryRoot_Ok_counters {E : Env} (blockRoot root : Root) (state : BeaconState)
  (s s' : Service) :
  loadEpochBoundaryRoot blockRoot state s = (Ok root, s') ->
  splitInfo s' = splitInfo s /\
  hotStateSaved s' = hotStateSaved s /\
  hotSummarySaved s' = hotSummarySaved s.
Proof.
  intros Hrun. apply loadEpochBoundaryRoot_Ok_inv in Hrun. cbv zeta in Hrun.
  destruct Hrun as [[_ ->] | [(_ & _ & _ & ->) | (_ & _ & s1 & -> & Hs1)]]; [auto .. |].
  destruct Hs1 as [(_ & -> & _) | [(_ & -> & _) | (_ & _ & Hh)]]; [auto .. |].
  apply handleLastValidState_Ok_inv in Hh as (? & ? & ? & _ & _ & _ & _ & ->). auto.
Qed.

(** Off an epoch start the state is off its boundary slot. *)
Lemma intermediate_slot_off_boundary {E : Env} (state : BeaconState) :
  IsEpochStart (StateSlot state) = false ->
  StateSlot state <> wrap64 (CurrentEpoch state * SlotsPerEpoch).
Proof.
  intros Hstart Hb.
  apply (epoch_start_boundary _ (StateSlot_range state)) in Hb. congruence.
Qed.

(** After a successful save on an intermediate slot the resolved root is
    cached for the boundary slot. *)
Lemma saveHotState_intermediate_inv {E : Env} (blockRoot : Root) (state : BeaconState)
  (s s' : Service) :
  IsEpochStart (StateSlot state) = false ->
  saveHotState blockRoot state s = (Ok tt, s') ->
  exists epochRoot s1,
    loadEpochBoundaryRoot blockRoot state s = (Ok epochRoot, s1) /\
    epochBoundarySlotToRoot s1 !! wrap64 (CurrentEpoch state * SlotsPerEpoch) = Some epochRoot /\
    s' = {| beaconDB :=
              Store_SaveHotStateSummary (beaconDB s1)
                {| pb.Slot := StateSlot state; pb.LatestRoot := blockRoot;
                   pb.BoundaryRoot := epochRoot |};
            epochBoundarySlotToRoot := epochBoundarySlotToRoot s1;
            splitInfo := splitInfo s1;
            hotStateSaved := hotStateSaved s1;
            hotSummarySaved := hotSummarySaved s1 + 1 |}.
Proof.
  intros Hstart Hsave.
  apply saveHotState_Ok_inv in Hsave as (epochRoot & s1 & Hrun & ->).
  rewrite Hstart in Hrun. run.
  exists epochRoot, s1. split; [exact Hrun |]. split; [| reflexivity].
  pose proof (intermediate_slot_off_boundary state Hstart) as Hoff.
  apply loadEpochBoundaryRoot_Ok_inv in Hrun. cbv zeta in Hrun.
  destruct Hrun as [[Hhit ->] | [(_ & Hon & _) | (_ & _ & s0 & -> & _)]];
    [exact Hhit | contradiction | cbn; apply lookup_insert_eq].
Qed.


(** X11: a successful [saveHotState] counts one saved summary, counts one
    saved state exactly when the slot is an epoch start, and leaves the split
    point alone. *)
Theorem saveHotState_counters {E : Env} (blockRoot : Root) (state : BeaconState)
  (s s' : Service) :
  saveHotState blockRoot state s = (Ok tt, s') ->
  hotSummarySaved s' = hotSummarySaved s + 1 /\
  hotStateSaved s' = hotStateSaved s + (if IsEpochStart (StateSlot state) then 1 else 0) /\
  splitInfo s' = splitInfo s.
Proof.
  intros Hsave. apply saveHotState_Ok_inv in Hsave as (epochRoot & s1 & Hrun & ->).
  apply loadEpochBoundaryRoot_Ok_counters in Hrun as (Hsplit & Hstate & Hsum).
  cbn [hotSummarySaved hotStateSaved splitInfo]. rewrite Hsplit, Hstate, Hsum.
  destruct (IsEpochStart (StateSlot state)); run; cbn; repeat split; lia.
Qed.

(** X12: after a successful [saveHotState] on an intermediate slot, the root
    cached for the start slot of the state's epoch is the boundary root of
    the summary just saved; a load by slot in that epoch therefore does not
    fail for want of a cached boundary root. *)
Theorem saveHotState_caches_boundary {E : Env} (blockRoot : Root) (state : BeaconState)
  (s s' : Service) :
  saveHotState blockRoot state s = (Ok tt, s') ->
  IsEpochStart (StateSlot state) = false ->
  exists summary,
    summaries (beaconDB s') !! blockRoot = Some summary /\
    epochBoundarySlotToRoot s' !! StartSlot (CurrentEpoch state) = Some (pb.BoundaryRoot summary) /\
    forall slot, SlotToEpoch slot = CurrentEpoch state ->
                 fst (loadHotIntermediateStateWithSlot slot s') <> Err ErrBoundaryRootNotCached.
Proof.
  intros Hsave Hstart.
  apply (saveHotState_intermediate_inv _ _ _ _ Hstart) in Hsave
    as (epochRoot & s1 & _ & Hhit & ->).
  eexists. split; [cbn; apply lookup_insert_eq |].
  cbn [pb.BoundaryRoot epochBoundarySlotToRoot]. split; [exact Hhit |].
  intros slot Hepoch. rewrite loadHotIntermediateStateWithSlot_unfold, Hepoch.
  cbn [fst epochBoundarySlotToRoot]. unfold StartSlot. rewrite Hhit.
  destruct (last _) as [lastRoot |]; [| discriminate].
  destruct (blocks _ !! lastRoot) as [b |]; [| discriminate].
  destruct (states _ !! epochRoot) as [bst |]; [| discriminate].
  destruct (Store_LoadBlocks _ _ _ _) as [blks | e | p] eqn:Hl; [| | discriminate].
  - intros Hr. apply Store_ReplayBlocks_Err in Hr as [? | ?]; discriminate.
  - intros [= ->]. apply Store_LoadBlocks_Err in Hl as [? | ?]; discriminate.
Qed.

(** X13: when [saveHotState] succeeds for a state whose boundary slot [B]
    holds no block (nothing cached for [B], [B] not the genesis slot), the
    summary points to the last root of the window [[split.slot, B]] and a
    state on slot [B] has been stored under that root: the load that follows
    does not fail for want of a boundary state. *)
Theorem saveHotState_skip_slot_then_load {E : Env} (blockRoot : Root) (state : BeaconState)
  (s s' : Service) :
  let B := wrap64 (CurrentEpoch state * SlotsPerEpoch) in
  (forall st0 t st1, ProcessSlots st0 t = Some st1 -> StateSlot st1 = t) ->
  saveHotState blockRoot state s = (Ok tt, s') ->
  epochBoundarySlotToRoot s !! B = None -> StateSlot state <> B -> B <> 0 ->
  Store_BlockRoots (beaconDB s) B B = [] ->
  exists summary boundaryState,
    summaries (beaconDB s') !! blockRoot = Some summary /\
    last (Store_BlockRoots (beaconDB s) (SplitInfo.slot (splitInfo s)) B)
    = Some (pb.BoundaryRoot summary) /\
    states (beaconDB s') !! pb.BoundaryRoot summary = Some boundaryState /\
    StateSlot boundaryState = B /\
    fst (loadHotStateByRoot blockRoot s') <> Err ErrNilBoundaryState.
Proof.
  cbv zeta. intros Hps Hsave Hmiss Hoff Hnz Hskip.
  assert (Hstart : IsEpochStart (StateSlot state) = false).
  { destruct (IsEpochStart (StateSlot state)) eqn:Hs; [| reflexivity].
    apply (epoch_start_boundary _ (StateSlot_range state)) in Hs. contradiction. }
  apply (saveHotState_intermediate_inv _ _ _ _ Hstart) in Hsave
    as (epochRoot & s1 & Hrun & _ & Hs').
  apply loadEpochBoundaryRoot_Ok_inv in Hrun. cbv zeta in Hrun.
  destruct Hrun as [[Hhit _] | [(_ & Hon & _) | (_ & _ & s0 & Hs1 & Hs0)]];
    [congruence | contradiction |].
  destruct Hs0 as [(Hz & _) | [(_ & _ & Hone) | (_ & _ & Hh)]];
    [contradiction | congruence |].
  apply handleLastValidState_Ok_inv in Hh
    as (startState & blks & st & Hlast & _ & _ & Hreplay & Hs0).
  assert (Hst : StateSlot st = wrap64 (CurrentEpoch state * SlotsPerEpoch))
    by (eapply Store_ReplayBlocks_slot; eassumption).
  assert (Hsum : summaries (beaconDB s') !! blockRoot
                 = Some {| pb.Slot := StateSlot state; pb.LatestRoot := blockRoot;
                           pb.BoundaryRoot := epochRoot |})
    by (rewrite Hs'; cbn; apply lookup_insert_eq).
  assert (Hbst : states (beaconDB s') !! epochRoot = Some st)
    by (rewrite Hs', Hs1, Hs0; cbn; apply lookup_insert_eq).
  eexists _, st. split; [exact Hsum |]. cbn [pb.BoundaryRoot].
  split; [exact Hlast |]. split; [exact Hbst |]. split; [exact Hst |].
  rewrite loadHotStateByRoot_unfold, Hsum. cbn [fst pb.BoundaryRoot]. rewrite Hbst.
  intros Hr. apply replayFrom_Err in Hr as [_ ?]. congruence.
Qed.

(** A successful resolution leaves the summaries alone. *)
Lemma loadEpochBoundaryRoot_Ok_summaries {E : Env} (blockRoot root : Root) (state : BeaconState)
  (s s' : Service) :
  loadEpochBoundaryRoot blockRoot state s = (Ok root, s') ->
  summaries (beaconDB s') = summaries (beaconDB s).
Proof.
  intros Hrun. apply loadEpochBoundaryRoot_Ok_inv in Hrun. cbv zeta in Hrun.
  destruct Hrun as [[_ ->] | [(_ & _ & _ & ->) | (_ & _ & s1 & -> & Hs1)]]; [auto .. |].
  destruct Hs1 as [(_ & -> & _) | [(_ & -> & _) | (_ & _ & Hh)]]; [auto .. |].
  apply handleLastValidState_Ok_inv in Hh as (? & ? & ? & _ & _ & _ & _ & ->). auto.
Qed.

(** X14: after a successful [saveHotState] the hot state of the root exists
    for [HotStateExists], and the answer for every other root is what it was
    before the save. *)
Theorem saveHotState_then_exists {E : Env} (blockRoot : Root) (state : BeaconState)
  (s s' : Service) :
  saveHotState blockRoot state s = (Ok tt, s') ->
  fst (HotStateExists blockRoot s') = Ok true /\
  forall r, r <> blockRoot -> fst (HotStateExists r s') = fst (HotStateExists r s).
Proof.
  intros Hsave. apply saveHotState_Ok_inv in Hsave as (epochRoot & s1 & Hrun & ->).
  apply loadEpochBoundaryRoot_Ok_summaries in Hrun.
  assert (Hsum : summaries (beaconDB s1) = summaries (beaconDB s))
    by (rewrite Hrun; destruct (IsEpochStart (StateSlot state)); reflexivity).
  unfold HotStateExists, HasHotStateSummary, gets. cbn. rewrite Hsum. split.
  - rewrite lookup_insert_eq. reflexivity.
  - intros r Hr. rewrite lookup_insert_ne by congruence. reflexivity.
Qed.


(** ** Instances of the further properties on the test forest *)

(** A save that fails on two blocks of slot 8 writes nothing. *)
Lemma saveHotState_failure_writes_nothing_witness :
  snd (saveHotState (E := Test.env) 99%N (Test.stateAt 9) (Test.service Test.db8 ∅))
  = Test.service Test.db8 ∅.
Proof.
  refine (proj1 (saveHotState_failure_writes_nothing (E := Test.env) 99%N (Test.stateAt 9)
                   (Test.service Test.db8 ∅) _)).
  vm_compute. reflexivity.
Defined.

(** Resolving the boundary root of a state on slot 9 twice. *)
Lemma loadEpochBoundaryRoot_idempotent_witness :
  loadEpochBoundaryRoot (E := Test.env) 99%N (Test.stateAt 9)
    (snd (loadEpochBoundaryRoot (E := Test.env) 99%N (Test.stateAt 9) (Test.service Test.db1 ∅)))
  = (Ok Test.r8,
     snd (loadEpochBoundaryRoot (E := Test.env) 99%N (Test.stateAt 9) (Test.service Test.db1 ∅))).
Proof.
  apply (loadEpochBoundaryRoot_idempotent (E := Test.env) 99%N Test.r8 (Test.stateAt 9)
           (Test.service Test.db1 ∅)).
  apply run_Ok. vm_compute. reflexivity.
Defined.

(** The boundary root of a state on slot 9 is the root of B8. *)
Lemma loadEpochBoundaryRoot_from_database_witness :
  epochBoundarySlotToRoot
    (snd (loadEpochBoundaryRoot (E := Test.env) 99%N (Test.stateAt 9) (Test.service Test.db1 ∅)))
    !! wrap64 (CurrentEpoch (E := Test.env) (Test.stateAt 9) * SlotsPerEpoch (Env := Test.env))
  = Some Test.r8.
Proof.
  refine (proj1 (loadEpochBoundaryRoot_from_database (E := Test.env) 99%N Test.r8 (Test.stateAt 9)
                   (Test.service Test.db1 ∅) _ _ _ _ _)).
  - apply run_Ok. vm_compute. reflexivity.
  - vm_compute. reflexivity.
  - vm_compute. discriminate.
  - vm_compute. discriminate.
Defined.

(** The backfill of slot 8 in the tree that has no block on it. *)
Lemma handleLastValidState_backfill_witness :
  last (Store_BlockRoots (E := Test.env)
          (beaconDB (Test.service Test.db3 {[ 0 := Test.r0 ]}))
          (SplitInfo.slot (splitInfo (Test.service Test.db3 {[ 0 := Test.r0 ]}))) 8)
  = Some Test.r7.
Proof.
  refine (proj1 (handleLastValidState_backfill (E := Test.env)
                   (Test.service Test.db3 {[ 0 := Test.r0 ]}) _ 8 Test.r7
                   Test_ProcessSlots_slot _)).
  apply run_Ok. vm_compute. reflexivity.
Defined.

(** The last valid block at slot 5 of the first tree is B5. *)
Lemma getLastValidBlock_highest_witness :
  snd (getLastValidBlock (E := Test.env) 5 (Test.service Test.db1 ∅)) = Test.service Test.db1 ∅.
Proof.
  refine (proj1 (getLastValidBlock_highest (E := Test.env) (Test.service Test.db1 ∅) _ 5 5
                   Test.r5 _)).
  apply run_Ok. vm_compute. reflexivity.
Defined.

(** Loading slot 3 of the first tree by slot. *)
Lemma loadHotIntermediateStateWithSlot_result_witness :
  snd (loadHotIntermediateStateWithSlot (E := Test.env) 3 (Test.service Test.db1 {[ 0 := Test.r0 ]}))
  = Test.service Test.db1 {[ 0 := Test.r0 ]}.
Proof.
  exact (proj1 (loadHotIntermediateStateWithSlot_result (E := Test.env)
                  (Test.service Test.db1 {[ 0 := Test.r0 ]}) 3 Test_ProcessSlots_slot)).
Defined.



Lemma saveHotState_counters_witness :
  hotSummarySaved
    (snd (saveHotState (E := Test.env) Test.r9 (Test.stateAt 9) (Test.service Test.db5 ∅)))
  = hotSummarySaved (Test.service Test.db5 ∅) + 1.
Proof.
  refine (proj1 (saveHotState_counters (E := Test.env) Test.r9 (Test.stateAt 9)
                   (Test.service Test.db5 ∅) _ _)).
  apply run_Ok. vm_compute. reflexivity.
Defined.

Lemma saveHotState_caches_boundary_witness :
  exists summary,
    summaries (beaconDB (snd (saveHotState (E := Test.env) Test.r9 (Test.stateAt 9)
                                (Test.service Test.db5 ∅)))) !! Test.r9 = Some summary /\
    epochBoundarySlotToRoot
      (snd (saveHotState (E := Test.env) Test.r9 (Test.stateAt 9) (Test.service Test.db5 ∅)))
      !! StartSlot (E := Test.env) (CurrentEpoch (E := Test.env) (Test.stateAt 9))
    = Some (pb.BoundaryRoot summary).
Proof.
  destruct (saveHotState_caches_boundary (E := Test.env) Test.r9 (Test.stateAt 9)
              (Test.service Test.db5 ∅)
              (snd (saveHotState (E := Test.env) Test.r9 (Test.stateAt 9) (Test.service Test.db5 ∅))))
    as (summary & Hsum & Hcache & _).
  - apply run_Ok. vm_compute. reflexivity.
  - vm_compute. reflexivity.
  - exists summary. split; assumption.
Defined.

(** Saving the state of B10, a child of B7, with no block on slot 8. *)
Lemma saveHotState_skip_slot_then_load_witness :
  fst (loadHotStateByRoot (E := Test.env) Test.r10
         (snd (saveHotState (E := Test.env) Test.r10 (Test.stateAt 10)
                 (Test.service Test.db7 {[ 0 := Test.r0 ]}))))
  <> Err ErrNilBoundaryState /\
  fst (loadHotStateByRoot (E := Test.env) Test.r10
         (snd (saveHotState (E := Test.env) Test.r10 (Test.stateAt 10)
                 (Test.service Test.db7 {[ 0 := Test.r0 ]}))))
  = Ok {| Test.slot := 10; Test.applied := [10; 7; 6; 4; 2; 1] |}.
Proof.
  split; [| vm_compute; reflexivity].
  destruct (saveHotState_skip_slot_then_load (E := Test.env) Test.r10 (Test.stateAt 10)
              (Test.service Test.db7 {[ 0 := Test.r0 ]})
              (snd (saveHotState (E := Test.env) Test.r10 (Test.stateAt 10)
                      (Test.service Test.db7 {[ 0 := Test.r0 ]}))))
    as (summary & bst & _ & _ & _ & _ & Hload).
  - exact Test_ProcessSlots_slot.
  - apply run_Ok. vm_compute. reflexivity.
  - vm_compute. reflexivity.
  - vm_compute. discriminate.
  - vm_compute. discriminate.
  - vm_compute. reflexivity.
  - exact Hload.
Defined.

Lemma saveHotState_then_exists_witness :
  fst (HotStateExists (E := Test.env) Test.r9
         (snd (saveHotState (E := Test.env) Test.r9 (Test.stateAt 9) (Test.service Test.db5 ∅))))
  = Ok true.
Proof.
  refine (proj1 (saveHotState_then_exists (E := Test.env) Test.r9 (Test.stateAt 9)
                   (Test.service Test.db5 ∅) _ _)).
  apply run_Ok. vm_compute. reflexivity.
Defined.

